(** * check_graphite: threshold checks against a graphite backend

    A shallow embedding of the check runner ([runner.runCheck]), of the
    earlier in-process daemon loop of [main.go], of the state history
    ([States]) and of the monzero coordinator ([Checker.Next],
    [CheckExec]), with the properties of the specification stated over it.

    Go values are modelled as follows: [int] is a [Z] in the 64-bit range
    with the wrap-around of [+] written out, [float64] is the kernel's
    binary64 [float], [string] and [[]byte] are [string] (a list of bytes),
    slices are lists, a nil pointer is [None], a panic is [Panic]. *)

From Stdlib Require Import ZArith List String Ascii Bool Lia PrimFloat.
From Stdlib Require DecimalString DecimalPos Uint63 FloatAxioms SpecFloat.
Import ListNotations.
Local Open Scope Z_scope.

(** ** The Go runtime, as far as the program uses it *)

Module Go.

(** A computation either returns or panics. *)
Inductive outcome (A : Type) : Type :=
| Ret (a : A)
| Panic (reason : string).
Arguments Ret {A} a.
Arguments Panic {A} reason.

Definition bind {A B} (m : outcome A) (k : A -> outcome B) : outcome B :=
  match m with
  | Ret a => k a
  | Panic r => Panic r
  end.

Definition int_min : Z := - 2 ^ 63.
Definition int_max : Z := 2 ^ 63 - 1.
Definition is_int (z : Z) : Prop := int_min <= z <= int_max.

(** Two's complement wrap-around of a 64-bit [int]. *)
Definition wrap (z : Z) : Z := (z + 2 ^ 63) mod 2 ^ 64 - 2 ^ 63.

(** [fmt.Sprintf] is kept unevaluated: a message is either a literal
    string or a format with its arguments. *)
Inductive text : Type :=
| Lit (s : string)
| Sprintf (format : string) (args : list arg)
with arg : Type :=
| ArgString (s : string)
| ArgInt (n : Z)
| ArgFloat (x : float)
| ArgError (e : text)
| ArgDuration (d : Z).

(** An [error] value is represented by its message. *)
Definition error := text.

(** The escape [\n] of a Go string literal. *)
Definition newline : string := String "010" EmptyString.

End Go.
Export Go.

Declare Scope go_scope.
Notation "x <- m ;; k" := (Go.bind m (fun x => k))
  (at level 61, m at next level, right associativity) : go_scope.
Local Open Scope go_scope.

(** [type Result []struct{ Datapoints [][]*float64 }]: the decoded
    answer of the backend, a point being a slice of pointers of which the
    first is the value, nil when the value is absent. *)
Record Target := { Datapoints : list (list (option float)) }.
Definition Result := list Target.

(** What the program takes from Go's standard library without the
    embedding looking inside: number syntax, URL syntax and the JSON
    decoder. *)
Record GoLib := {
  (** [strconv.ParseFloat(s, 64)]: the value and the error, if any *)
  ParseFloat : string -> float * option error;
  (** [strconv.ParseInt(s, 0, strconv.IntSize)] *)
  ParseInt : string -> Z * option error;
  (** [url.Parse]: only success or failure is observed *)
  url_Parse : string -> option error;
  (** [json.Unmarshal(raw, &payload)] for [payload : Result] *)
  json_Unmarshal : string -> Result + error
}.

(** ** Package flag of the standard library

    A flag set with string, float64 and int flags, parsed with
    [ContinueOnError]. *)

Module flag.

Inductive Value : Type :=
| StringVal (s : string)
| Float64Val (x : float)
| IntVal (n : Z).

(** The formal flags of a [FlagSet]: name and current value. *)
Definition FlagSet := list (string * Value).

Fixpoint lookup (name : string) (f : FlagSet) : option Value :=
  match f with
  | [] => None
  | (n, v) :: f' => if String.eqb n name then Some v else lookup name f'
  end.

Fixpoint store (name : string) (v : Value) (f : FlagSet) : FlagSet :=
  match f with
  | [] => []
  | (n, w) :: f' =>
      if String.eqb n name then (n, v) :: f' else (n, w) :: store name v f'
  end.

(** [Value.Set]: the numeric kinds assign the parsed value even when the
    parser reports an error. *)
Definition Set_ (lib : GoLib) (old : Value) (s : string) : Value * option error :=
  match old with
  | StringVal _ => (StringVal s, None)
  | Float64Val _ => let (x, e) := ParseFloat lib s in (Float64Val x, e)
  | IntVal _ => let (n, e) := ParseInt lib s in (IntVal n, e)
  end.

(** [name[i] == '='] for the first [i >= 1]: the name before it and the
    value after it. *)
Fixpoint cut_equals (s : string) : option (string * string) :=
  match s with
  | EmptyString => None
  | String c s' =>
      if Ascii.eqb c "="%char then Some (EmptyString, s')
      else match cut_equals s' with
           | Some (n, v) => Some (String c n, v)
           | None => None
           end
  end.

Definition split_name (name : string) : string * option string :=
  match name with
  | EmptyString => (name, None)
  | String c rest =>
      match cut_equals rest with
      | Some (n, v) => (String c n, Some v)
      | None => (name, None)
      end
  end.

Definition ErrHelp : error := Lit "flag: help requested".

(** What [parseOne] finds at the head of the arguments. *)
Inductive head : Type :=
| NotAFlag
| Terminator
| BadSyntax
| Named (name : string).

Definition classify (s : string) : head :=
  match s with
  | String "-" (String "-" EmptyString) => Terminator
  | String "-" (String "-" name) =>
      match name with
      | String "-" _ | String "=" _ => BadSyntax
      | _ => Named name
      end
  | String "-" EmptyString => NotAFlag
  | String "-" name =>
      match name with
      | String "=" _ => BadSyntax
      | _ => Named name
      end
  | _ => NotAFlag
  end.

(** [FlagSet.Parse] with [ContinueOnError]: [parseOne] repeated until an
    argument is not a flag or an error occurs.  Returns the flag set as
    it is left behind and the error. *)
Fixpoint Parse (lib : GoLib) (f : FlagSet) (arguments : list string)
  : FlagSet * option error :=
  match arguments with
  | [] => (f, None)
  | s :: rest =>
      match classify s with
      | NotAFlag | Terminator => (f, None)
      | BadSyntax => (f, Some (Sprintf "bad flag syntax: %s" [ArgString s]))
      | Named full =>
          let (name, inline) := split_name full in
          match lookup name f with
          | None =>
              if String.eqb name "help" || String.eqb name "h"
              then (f, Some ErrHelp)
              else (f, Some (Sprintf "flag provided but not defined: -%s"
                                     [ArgString name]))
          | Some old =>
              let assign value rest' :=
                let (v, e) := Set_ lib old value in
                match e with
                | Some err =>
                    (store name v f,
                     Some (Sprintf "invalid value %q for flag -%s: %v"
                                   [ArgString value; ArgString name; ArgError err]))
                | None => Parse lib (store name v f) rest'
                end in
              match inline with
              | Some value => assign value rest
              | None =>
                  match rest with
                  | value :: rest' => assign value rest'
                  | [] => (f, Some (Sprintf "flag needs an argument: -%s"
                                            [ArgString name]))
                  end
              end
          end
      end
  end.

Definition String_ (f : FlagSet) (name : string) : string :=
  match lookup name f with Some (StringVal s) => s | _ => EmptyString end.
Definition Float64 (f : FlagSet) (name : string) : float :=
  match lookup name f with Some (Float64Val x) => x | _ => 0%float end.
Definition Int (f : FlagSet) (name : string) : Z :=
  match lookup name f with Some (IntVal n) => n | _ => 0 end.

(** The flag an argument names, if it has the form of a flag, and whether
    some argument names the flag [name]: a flag that no argument names is
    missing from the command line. *)
Definition named (s : string) : option string :=
  match classify s with
  | Named full => Some (fst (split_name full))
  | _ => None
  end.

Definition mentions (name : string) (arguments : list string) : bool :=
  existsb (fun s => match named s with
                    | Some n => String.eqb n name
                    | None => false
                    end) arguments.

End flag.

(** ** The HTTP client

    The backend is an oracle: the answer to the [i]-th [Get] of a run.
    [url.String()] is kept unevaluated as the parsed address, the suffix
    appended to its path and the query parameters set on it. *)

Record Request := {
  req_addr : string;
  req_path_suffix : string;
  req_query : list (string * string)
}.

(** [ioutil.ReadAll(res.Body)] *)
Inductive Body : Type :=
| BodyRead (raw : string)
| BodyError (e : error).

Record Response := { StatusCode : Z; body : Body }.

Definition Client := nat -> Request -> Response + error.

(** ** Threshold evaluation

    The scan over all points of all targets, shared by both versions of
    [runCheck].  [curVal] is the pointer to the extreme value seen so far,
    [exitCode] the running exit code. *)

Module threshold.

Record scan := { curVal : option float; exitCode : Z }.

Definition start : scan := {| curVal := None; exitCode := 0 |}.

(** One iteration of the inner loop. *)
Definition point_step (levelWarn levelErr : float) (st : scan)
           (point : list (option float)) : outcome scan :=
  match point with
  | [] => Panic "index out of range [0] with length 0"
  | None :: _ => Ret st
  | Some v :: _ =>
      if (levelErr <? levelWarn)%float then
        let cur := match curVal st with
                   | None => Some v
                   | Some c => if (v <? c)%float then Some v else Some c
                   end in
        let code := if (v <=? levelErr)%float && negb (exitCode st =? 1) then 2
                    else if (v <=? levelWarn)%float && (exitCode st =? 0) then 1
                    else exitCode st in
        Ret {| curVal := cur; exitCode := code |}
      else
        let cur := match curVal st with
                   | None => Some v
                   | Some c => if (c <? v)%float then Some v else Some c
                   end in
        let code := if (levelErr <=? v)%float && negb (exitCode st =? 1) then 2
                    else if (levelWarn <=? v)%float && (exitCode st =? 0) then 1
                    else exitCode st in
        Ret {| curVal := cur; exitCode := code |}
  end.

(** [for _, point := range target.Datapoints] *)
Fixpoint points (levelWarn levelErr : float) (st : scan)
         (ps : list (list (option float))) : outcome scan :=
  match ps with
  | [] => Ret st
  | p :: ps' =>
      st' <- point_step levelWarn levelErr st p ;;
      points levelWarn levelErr st' ps'
  end.

(** [for _, target := range payload] *)
Fixpoint targets (levelWarn levelErr : float) (st : scan)
         (payload : Result) : outcome scan :=
  match payload with
  | [] => Ret st
  | t :: payload' =>
      st' <- points levelWarn levelErr st (Datapoints t) ;;
      targets levelWarn levelErr st' payload'
  end.

(** All points of a payload in the order the loops visit them. *)
Definition all_points (payload : Result) : list (list (option float)) :=
  List.concat (map Datapoints payload).

(** The non-absent values among them. *)
Fixpoint values (ps : list (list (option float))) : list float :=
  match ps with
  | [] => []
  | (Some v :: _) :: ps' => v :: values ps'
  | _ :: ps' => values ps'
  end.

(** The severity of a single value as the specification words it:
    descending when the error level is below the warning level,
    ascending otherwise. *)
Definition severity (levelWarn levelErr v : float) : Z :=
  if (levelErr <? levelWarn)%float then
    if (v <=? levelErr)%float then 2 else if (v <=? levelWarn)%float then 1 else 0
  else
    if (levelErr <=? v)%float then 2 else if (levelWarn <=? v)%float then 1 else 0.

(** The severity of the first value whose severity is not 0. *)
Fixpoint first_alarm (levelWarn levelErr : float) (vs : list float) : Z :=
  match vs with
  | [] => 0
  | v :: vs' =>
      if severity levelWarn levelErr v =? 0 then first_alarm levelWarn levelErr vs'
      else severity levelWarn levelErr v
  end.

End threshold.

(** ** monzero: checks and results *)

Module monzero.

Record Check := {
  Command : list string;
  ExitCodes : list Z;
  id : Z;
  mappingId : Z
}.

Record CheckResult := { ExitCode : Z; Message : text }.

(** A [context.Context] made by [context.WithTimeout]: what [ctx.Err()]
    answers once the executor has returned. *)
Inductive ctx_error : Type :=
| NoError
| Canceled
| DeadlineExceeded.

Record Context := { Err : ctx_error }.

End monzero.
Export monzero.

(** ** runner.runCheck: the HTTP threshold executor *)

Module runner.

(** The flags declared at the top of [runCheck], with their defaults. *)
Definition flags : flag.FlagSet :=
  [ ("addr", flag.StringVal "");
    ("interval", flag.StringVal "60s");
    ("warn", flag.Float64Val 0);
    ("error", flag.Float64Val 0);
    ("key", flag.StringVal "");
    ("retries", flag.IntVal 0);
    ("message", flag.StringVal "current value: %f") ]%string.

Definition failed (m : text) : CheckResult := {| ExitCode := 3; Message := m |}.

Definition render (addr key interval : string) : Request :=
  {| req_addr := addr;
     req_path_suffix := "/render";
     req_query := [ ("format", "json"); ("target", key);
                    ("from", "-" ++ interval) ]%string |}.

(** How the request loop is left. *)
Inductive fetched : Type :=
| Returned (r : CheckResult)
| Success (res : Response) (raw : string)
| Exhausted (res : option Response).

(** [for i := 0; i < *retries+1; i++]: [budget] iterations are left, [i]
    requests were sent, [res] is the last response.  Returns how the
    loop is left and the number of requests sent. *)
Fixpoint fetch (client : Client) (req : Request) (budget : nat) (i : nat)
         (res : option Response) : fetched * nat :=
  match budget with
  | O => (Exhausted res, i)
  | S budget' =>
      match client i req with
      | inr err =>
          (Returned (failed (Sprintf "could not get result: %s" [ArgError err])),
           S i)
      | inl res' =>
          match body res' with
          | BodyError err =>
              (Returned (failed (Sprintf "could not read content body: %s"
                                         [ArgError err])), S i)
          | BodyRead raw =>
              if StatusCode res' >? 500 then
                fetch client req budget' (S i) (Some res')
              else if negb (StatusCode res' =? 200) then
                (Returned (failed (Sprintf "graphite api answered with status code %d"
                                           [ArgInt (StatusCode res')])), S i)
              else (Success res' raw, S i)
          end
      end
  end.

(** The [i]-th request is answered, its body is read and its status is
    greater than 500. *)
Definition transient (client : Client) (req : Request) (i : nat) : bool :=
  match client i req with
  | inl res =>
      match body res with
      | BodyRead _ => StatusCode res >? 500
      | BodyError _ => false
      end
  | inr _ => false
  end.

(** The run of a check: its result, or a panic, and the number of
    requests sent to the backend. *)
Record run := { result : outcome CheckResult; requests : nat }.

(** Everything after a 200 response was read. *)
Definition evaluate (lib : GoLib) (levelWarn levelErr : float)
           (message raw : string) : outcome CheckResult :=
  match json_Unmarshal lib raw with
  | inr err =>
      Ret (failed (Sprintf ("could not parse json content: %s" ++ newline ++ "%s")
                           [ArgError err; ArgString raw]))
  | inl payload =>
      st <- threshold.targets levelWarn levelErr threshold.start payload ;;
      match threshold.curVal st with
      | None =>
          Ret {| ExitCode := 2;
                 Message := Lit "No values received for query! Is the host down?" |}
      | Some v =>
          Ret {| ExitCode := threshold.exitCode st;
                 Message := Sprintf (message ++ newline) [ArgFloat v] |}
      end
  end.

(** Lines 142-181: what is settled before the first request, either the
    result returned early or the request and the parsed flags. *)
Inductive prepared : Type :=
| Early (r : outcome CheckResult)
| Ready (req : Request) (retries : Z) (levelWarn levelErr : float) (message : string).

Definition prepare (lib : GoLib) (check : Check) : prepared :=
  match Command check with
  | [] => Early (Panic "slice bounds out of range [1:0]")
  | _ :: arguments =>
      match flag.Parse lib flags arguments with
      | (_, Some err) =>
          Early (Ret (failed (Sprintf "could not parse arguments: %s" [ArgError err])))
      | (fs, None) =>
          let addr := flag.String_ fs "addr" in
          let interval := flag.String_ fs "interval" in
          let levelWarn := flag.Float64 fs "warn" in
          let levelErr := flag.Float64 fs "error" in
          let key := flag.String_ fs "key" in
          let retries := flag.Int fs "retries" in
          let message := flag.String_ fs "message" in
          if String.eqb addr "" then
            Early (Ret (failed (Lit "no address given to check")))
          else if String.eqb interval "" then
            Early (Ret (failed (Lit "no interval given")))
          else if String.eqb key "" then
            Early (Ret (failed (Lit "no key given")))
          else
            match url_Parse lib addr with
            | Some err =>
                Early (Ret (failed (Sprintf "could not parse addr '%s': %s"
                                            [ArgString addr; ArgError err])))
            | None => Ready (render addr key interval) retries levelWarn levelErr message
            end
      end
  end.

Definition internal_problems (res : Response) : CheckResult :=
  failed (Sprintf "graphite api has internal problems, answered with status code: %d"
                  [ArgInt (StatusCode res)]).

Definition runCheck (lib : GoLib) (client : Client) (check : Check)
           (ctx : Context) : run :=
  match prepare lib check with
  | Early r => {| result := r; requests := 0 |}
  | Ready req retries levelWarn levelErr message =>
      let budget := Z.to_nat (Go.wrap (retries + 1)) in
      match fetch client req budget 0 None with
      | (Returned r, n) => {| result := Ret r; requests := n |}
      | (Exhausted None, n) =>
          {| result := Panic "nil pointer dereference"; requests := n |}
      | (Exhausted (Some res), n) =>
          {| result := Ret (internal_problems res); requests := n |}
      | (Success _ raw, n) =>
          {| result := evaluate lib levelWarn levelErr message raw; requests := n |}
      end
  end.

End runner.

(** ** Package strconv and bytes, as far as [States] uses them *)

Module strconv.

(** [fmt.Fprintf(w, "%d", n)] *)
Definition itoa (n : Z) : string := DecimalString.NilZero.string_of_int (Z.to_int n).

Definition digit_value (c : ascii) : option Z :=
  let n := Z.of_nat (nat_of_ascii c) in
  if (48 <=? n) && (n <=? 57) then Some (n - 48) else None.

(** The digit loop: [n = n*10 + int(ch - '0')], failing on any other byte. *)
Fixpoint digits (s : string) (n : Z) : option Z :=
  match s with
  | EmptyString => Some n
  | String ch s' =>
      match digit_value ch with
      | Some d => digits s' (n * 10 + d)
      | None => None
      end
  end.

Definition syntaxError (s : string) : error :=
  Sprintf "strconv.Atoi: parsing %q: invalid syntax" [ArgString s].
Definition rangeError (s : string) : error :=
  Sprintf "strconv.Atoi: parsing %q: value out of range" [ArgString s].

Definition in_range (s : string) (n : Z) : Z + error :=
  if (Go.int_min <=? n) && (n <=? Go.int_max) then inl n else inr (rangeError s).

(** [strconv.Atoi]: an optional sign, then at least one decimal digit and
    nothing else; the value must fit an [int]. *)
Definition Atoi (s : string) : Z + error :=
  match s with
  | EmptyString => inr (syntaxError s)
  | String c rest =>
      if Ascii.eqb c "-" || Ascii.eqb c "+" then
        match rest with
        | EmptyString => inr (syntaxError s)
        | _ =>
            match digits rest 0 with
            | Some n => in_range s (if Ascii.eqb c "-" then - n else n)
            | None => inr (syntaxError s)
            end
        end
      else
        match digits s 0 with
        | Some n => in_range s n
        | None => inr (syntaxError s)
        end
  end.

(** Predicates on the bytes of a string: every byte satisfies [P]; [P]
    accepts the sign and the ten digits. *)
Fixpoint every (P : ascii -> bool) (s : string) : bool :=
  match s with
  | EmptyString => true
  | String c s' => P c && every P s'
  end.

Definition numeric (P : ascii -> bool) : Prop :=
  forallb P (list_ascii_of_string "-0123456789") = true.

End strconv.

Module bytes.

Fixpoint TrimLeft (cut : ascii -> bool) (s : string) : string :=
  match s with
  | EmptyString => EmptyString
  | String c s' => if cut c then TrimLeft cut s' else s
  end.

Fixpoint TrimRight (cut : ascii -> bool) (s : string) : string :=
  match s with
  | EmptyString => EmptyString
  | String c s' =>
      match TrimRight cut s' with
      | EmptyString => if cut c then EmptyString else String c EmptyString
      | t => String c t
      end
  end.

(** [bytes.Trim(s, cutset)] *)
Definition Trim (s cutset : string) : string :=
  let cut c := existsb (Ascii.eqb c) (list_ascii_of_string cutset) in
  TrimLeft cut (TrimRight cut s).

(** [bytes.Split(s, sep)] for a separator of one byte: the pieces between
    the separators, one empty piece for an empty [s]. *)
Fixpoint Split (s : string) (sep : ascii) : list string :=
  match s with
  | EmptyString => [EmptyString]
  | String c s' =>
      if Ascii.eqb c sep then EmptyString :: Split s' sep
      else match Split s' sep with
           | piece :: pieces => String c piece :: pieces
           | [] => [String c EmptyString]
           end
  end.

Definition brace (c : ascii) : bool :=
  existsb (Ascii.eqb c) (list_ascii_of_string "{}").

Definition comma (c : ascii) : bool := Ascii.eqb c ",".

End bytes.

(** ** The state history *)

Module States.

Definition States := list Z.

Definition len {A} (l : list A) : Z := Z.of_nat (List.length l).

(** The loop of [Value]: [i] is the index of the next state, [buf] the
    builder. *)
Fixpoint write (last i : Z) (s : States) (buf : string) : string :=
  match s with
  | [] => buf
  | state :: s' =>
      let buf := (buf ++ strconv.itoa state)%string in
      let buf := if i <? last - 1 then (buf ++ ",")%string else buf in
      write last (i + 1) s' buf
  end.

(** [Value]: writes to a [strings.Builder] never fail, so the error is
    always nil and only the string is returned. *)
Definition Value (s : States) : string :=
  let last := len s in
  if last =? 0 then "{}"%string
  else (write last 0 s "{" ++ "}")%string.

(** The dynamic type of the [src] handed to [Scan]. *)
Inductive src : Type :=
| Bytes (b : string)
| Str (s : string)
| Int64 (n : Z)
| Nil.

Fixpoint parse (states : list string) : list Z + error :=
  match states with
  | [] => inl []
  | state :: states' =>
      match strconv.Atoi state with
      | inr err =>
          inr (Sprintf "could not parse element %s: %s" [ArgString state; ArgError err])
      | inl n =>
          match parse states' with
          | inl result => inl (n :: result)
          | inr err => inr err
          end
      end
  end.

(** [Scan]: the receiver after the call and the error. *)
Definition Scan (s : States) (from : src) : States * option error :=
  match from with
  | Bytes b =>
      let tmp := bytes.Trim b "{}" in
      let states := bytes.Split tmp "," in
      match parse states with
      | inl result => (result, None)
      | inr err => (s, Some err)
      end
  | _ => (s, Some (Sprintf "could not convert %T to states" []))
  end.

Definition Add (s : States) (state : Z) : States :=
  let vals := s in
  let statePos := if len vals <? 6 then len vals else 5 in
  state :: firstn (Z.to_nat statePos) vals.

Definition ToOK (s : States) : bool :=
  match s with
  | [] => false
  | [v0] => v0 =? 0
  | v0 :: v1 :: _ => (v0 =? 0) && (v1 >? 0)
  end.

(** The states separated by commas. *)
Fixpoint joined (s : States) : string :=
  match s with
  | [] => EmptyString
  | [state] => strconv.itoa state
  | state :: s' => (strconv.itoa state ++ String "," (joined s'))%string
  end.

End States.

(** ** monzero: the coordinator *)

Module Checker.

(** *** The shared store *)

Record ActiveCheck := {
  check_id : Z;
  cmdLine : list string;
  states : list Z;
  mapping_id : Z;
  checker_id : Z;
  enabled : bool;
  next_time : Z;
  intval : Z;
  msg : text;
  acknowledged : bool;
  state_since : Z
}.

Record CheckNotify := { cn_check_id : Z; cn_notifier_id : Z; cn_enabled : bool }.

Record MappingLevel := { ml_mapping_id : Z; ml_source : Z; ml_target : Z }.

Record Notification := {
  n_check_id : Z;
  n_states : list Z;
  n_output : text;
  n_mapping_id : Z;
  n_notifier_id : Z;
  n_check_host : string
}.

Record DB := {
  active_checks : list ActiveCheck;
  checks_notify : list CheckNotify;
  mapping_level : list MappingLevel;
  notifications : list Notification
}.

(** What the world decides during one call of [Next]. *)
Record World := {
  begin_error : option error;
  now : Z;
  (** rows locked by other transactions *)
  locked : list Z;
  query_error : option error;
  (** [ctx.Err()] once the executor has returned *)
  ctx_err : ctx_error;
  update_error : option error;
  insert_error : option error;
  commit_ok : bool
}.

Inductive Logger : Type := slog_Logger.

Definition Executor := Check -> Context -> outcome CheckResult.

Record Checker := {
  id : Z;
  executor : Executor;
  timeout : Z;
  ident : string;
  logger : option Logger
}.

Record CheckerConfig := {
  CheckerID : Z;
  Timeout : Z;
  Executor_ : option Executor;
  HostIdentifier : string;
  Logger_ : option Logger
}.

(** [NewChecker]: the checker id of the configuration is not copied, the
    field keeps its zero value. *)
Definition NewChecker (cfg : CheckerConfig) : Checker + error :=
  match Executor_ cfg with
  | None => inr (Lit "executor must not be nil")
  | Some e =>
      inl {| id := 0; executor := e; timeout := Timeout cfg;
             ident := HostIdentifier cfg; logger := Logger_ cfg |}
  end.

Definition ErrNoCheck : error := Lit "no check found to run".

(** *** The statements of [Next] *)

Definition due (c : Checker) (w : World) (r : ActiveCheck) : bool :=
  (next_time r <? now w) && enabled r && (checker_id r =? id c)
  && negb (existsb (Z.eqb (check_id r)) (locked w)).

(** [order by next_time ... limit 1] *)
Fixpoint earliest (rows : list ActiveCheck) : option ActiveCheck :=
  match rows with
  | [] => None
  | r :: rows' =>
      match earliest rows' with
      | Some r' => if next_time r' <? next_time r then Some r' else Some r
      | None => Some r
      end
  end.

Definition select_next (c : Checker) (w : World) (db : DB) : option ActiveCheck :=
  earliest (filter (due c w) (active_checks db)).

(** [update active_checks set ... where check_id = $1]: the right-hand
    sides read the row as it was. *)
Definition update_row (w : World) (code : Z) (m : text) (backToOkay : bool)
           (r : ActiveCheck) : ActiveCheck :=
  {| check_id := check_id r;
     cmdLine := cmdLine r;
     states := code :: firstn 4 (states r);
     mapping_id := mapping_id r;
     checker_id := checker_id r;
     enabled := enabled r;
     next_time := now w + intval r;
     intval := intval r;
     msg := m;
     acknowledged := if backToOkay then false else acknowledged r;
     state_since := match states r with
                    | top :: _ => if code =? top then state_since r else now w
                    | [] => now w
                    end |}.

Definition update (w : World) (cid code : Z) (m : text) (backToOkay : bool)
           (db : DB) : DB :=
  {| active_checks :=
       map (fun r => if check_id r =? cid then update_row w code m backToOkay r else r)
           (active_checks db);
     checks_notify := checks_notify db;
     mapping_level := mapping_level db;
     notifications := notifications db |}.

(** [insert into notifications ... group by cn.notifier_id]: per notifier,
    the mapped targets of every state of every joined row. *)
Definition mapped (db : DB) (r : ActiveCheck) : list Z :=
  flat_map (fun s =>
              map ml_target
                  (filter (fun ml => (ml_mapping_id ml =? mapping_id r)
                                     && (ml_source ml =? s))
                          (mapping_level db)))
           (states r).

Definition joined (db : DB) (cid : Z) : list (Z * list Z) :=
  flat_map (fun r =>
              if (check_id r =? cid) && negb (acknowledged r) then
                map (fun cn => (cn_notifier_id cn, mapped db r))
                    (filter (fun cn => (cn_check_id cn =? cid) && cn_enabled cn)
                            (checks_notify db))
              else [])
           (active_checks db).

Fixpoint notifier_ids (rows : list (Z * list Z)) : list Z :=
  match rows with
  | [] => []
  | (n, _) :: rows' =>
      n :: filter (fun n' => negb (n' =? n)) (notifier_ids rows')
  end.

Definition insert_notifications (c : Checker) (check : Check) (m : text)
           (db : DB) : DB :=
  let rows := joined db (monzero.id check) in
  let group n :=
    flat_map snd (filter (fun row => fst row =? n) rows) in
  {| active_checks := active_checks db;
     checks_notify := checks_notify db;
     mapping_level := mapping_level db;
     notifications :=
       notifications db ++
       flat_map (fun n =>
                   match group n with
                   | [] => []
                   | agg => [ {| n_check_id := monzero.id check;
                                 n_states := agg;
                                 n_output := m;
                                 n_mapping_id := mappingId check;
                                 n_notifier_id := n;
                                 n_check_host := ident c |} ]
                   end)
                (notifier_ids rows) |}.

(** The row scanned into a [Check]. *)
Definition claimed (row : ActiveCheck) : Check :=
  {| Command := cmdLine row; ExitCodes := states row;
     monzero.id := check_id row; mappingId := mapping_id row |}.

Definition timed_out (c : Checker) : CheckResult :=
  {| ExitCode := 2;
     Message := Sprintf "check took longer than %s" [ArgDuration (timeout c)] |}.

(** Lines 118-124: the executor runs under the deadline; when the
    deadline has passed its result is overwritten. *)
Definition run_executor (c : Checker) (w : World) (check : Check)
  : outcome CheckResult :=
  let ctx := {| Err := ctx_err w |} in
  result <- executor c check ctx ;;
  match Err ctx with
  | DeadlineExceeded => Ret (timed_out c)
  | _ => Ret result
  end.

(** Lines 133-138. *)
Definition backToOkay (ExitCodes : list Z) (code : Z) : bool :=
  match ExitCodes with
  | [] => code =? 0
  | top :: _ => (top >? 0) && (code =? 0)
  end.

(** [Next]: the store as the call leaves it and the returned error. *)
Definition Next (c : Checker) (w : World) (db : DB) : outcome (DB * option error) :=
  match begin_error w with
  | Some err =>
      Ret (db, Some (Sprintf "could not start database transaction: %w" [ArgError err]))
  | None =>
      match query_error w with
      | Some err =>
          Ret (db, Some (Sprintf "could not get next check: %w" [ArgError err]))
      | None =>
          match select_next c w db with
          | None => Ret (db, Some ErrNoCheck)
          | Some row =>
              let check := claimed row in
              result <- run_executor c w check ;;
              match logger c with
              | None => Panic "nil pointer dereference"
              | Some _ =>
                  let flag := backToOkay (ExitCodes check) (ExitCode result) in
                  match update_error w with
                  | Some err =>
                      Ret (db, Some (Sprintf "could not update check '%d': %w"
                                       [ArgInt (monzero.id check); ArgError err]))
                  | None =>
                      let db1 := update w (monzero.id check) (ExitCode result)
                                        (Message result) flag db in
                      match insert_error w with
                      | Some err =>
                          Ret (db, Some (Sprintf "could not create notification '%d': %s"
                                           [ArgInt (monzero.id check); ArgError err]))
                      | None =>
                          let db2 := insert_notifications c check (Message result) db1 in
                          Ret (if commit_ok w then db2 else db, None)
                      end
                  end
              end
          end
      end
  end.

End Checker.

(** ** monzero: the subprocess executor *)

Module Exec.

(** [cmd.ProcessState.Sys()]: a [syscall.WaitStatus] or something else. *)
Inductive Sys : Type :=
| WaitStatus (w : Z)
| OtherSys.

(** What [cmd.Run()] leaves behind, with the bytes written to the buffer
    shared by stdout and stderr.  [Run] returns a nil error only when the
    command ran and exited with status 0; otherwise there is an error,
    and a process state unless no process was waited for. *)
Inductive ran : Type :=
| Succeeded (output : string)
| Failed (err : error) (ProcessState : option Sys) (output : string).

Definition Command_ := string -> list string -> Context -> ran.

(** [syscall.WaitStatus] on Linux. *)
Definition Exited (w : Z) : bool := Z.land w 127 =? 0.
Definition Signaled (w : Z) : bool :=
  negb (Z.land w 127 =? 127) && negb (Z.land w 127 =? 0).
Definition ExitStatus (w : Z) : Z :=
  if Exited w then Z.land (Z.shiftr w 8) 255 else -1.

Definition CheckExec (os : Command_) (check : Check) (ctx : Context)
  : outcome CheckResult :=
  match Command check with
  | [] => Panic "index out of range [0] with length 0"
  | name :: arguments =>
      match os name arguments ctx with
      | Succeeded output => Ret {| ExitCode := 0; Message := Lit output |}
      | Failed err None _ =>
          Ret {| ExitCode := 3;
                 Message := Sprintf "unknown error when running command: %w"
                                    [ArgError err] |}
      | Failed err (Some OtherSys) output =>
          (* the message set in this branch is overwritten by the output *)
          Ret {| ExitCode := 2; Message := Lit output |}
      | Failed err (Some (WaitStatus status)) output =>
          Ret {| ExitCode := ExitStatus status; Message := Lit output |}
      end
  end.

End Exec.

(** ** The daemon of the runner *)

Module daemon.

(** The configuration [main] hands to [monzero.NewChecker] for each
    worker: store, timeout of 30 seconds, host name and [r.runCheck] as
    executor.  [main] sets neither a checker id nor a logger; [logger] is
    a parameter here to cover a configuration that sets one. *)
Definition config (lib : GoLib) (client : Client) (hostname : string)
           (logger : option Checker.Logger) : Checker.CheckerConfig :=
  {| Checker.CheckerID := 0;
     Checker.Timeout := 30 * 1000000000;
     Checker.Executor_ :=
       Some (fun check ctx => runner.result (runner.runCheck lib client check ctx));
     Checker.HostIdentifier := hostname;
     Checker.Logger_ := logger |}.

End daemon.

(** ** main.go: the earlier in-process daemon *)

Module legacy.

(** The flag set a worker thread creates once, before its loop. *)
Definition thread_flags : flag.FlagSet :=
  [ ("addr", flag.StringVal "");
    ("interval", flag.StringVal "60s");
    ("warn", flag.Float64Val 0);
    ("error", flag.Float64Val 0);
    ("key", flag.StringVal "");
    ("message", flag.StringVal "current value: %f") ]%string.

Record run := { result : outcome (text * Z); requests : nat }.

Definition done (m : text) (code : Z) : run :=
  {| result := Ret (m, code); requests := 0 |}.

(** Everything after a 200 response was read.  [message] is the
    process-wide flag, not the parameter [msg] of [runCheck]. *)
Definition evaluate (lib : GoLib) (message : string) (levelWarn levelErr : float)
           (raw : string) : outcome (text * Z) :=
  match json_Unmarshal lib raw with
  | inr err =>
      Ret (Sprintf ("could not parse json content: %s" ++ newline ++ "%s")
                   [ArgError err; ArgString raw], 3)
  | inl payload =>
      st <- threshold.targets levelWarn levelErr threshold.start payload ;;
      match threshold.curVal st with
      | None => Ret (Lit "no values received! Is the host down?!", 2)
      | Some v =>
          Ret (Sprintf (message ++ newline) [ArgFloat v], threshold.exitCode st)
      end
  end.

Definition runCheck (lib : GoLib) (message : string) (c : Client)
           (addr key msg intVal : string) (levelWarn levelErr : float) : run :=
  if String.eqb addr "" then done (Lit "no address given to check") 3
  else if String.eqb intVal "" then done (Lit "no interval given") 3
  else if String.eqb key "" then done (Lit "no key given") 3
  else
    match url_Parse lib addr with
    | Some err =>
        done (Sprintf "could not parse addr '%s': %s" [ArgString addr; ArgError err]) 3
    | None =>
        match runner.fetch c (runner.render addr key intVal) 2 0 None with
        | (runner.Returned r, n) =>
            {| result := Ret (Message r, ExitCode r); requests := n |}
        | (runner.Exhausted None, n) =>
            {| result := Panic "nil pointer dereference"; requests := n |}
        | (runner.Exhausted (Some res), n) =>
            {| result := Ret (Sprintf
                 "graphite api has internal problems, answered with status code: %d"
                 [ArgInt (StatusCode res)], 3);
               requests := n |}
        | (runner.Success _ raw, n) =>
            {| result := evaluate lib message levelWarn levelErr raw; requests := n |}
        end
    end.

(** Lines 143-148 of the worker loop: the claimed command line is parsed
    into the thread's flag set, which is handed on to the next turn. *)
Definition execute (lib : GoLib) (message : string) (c : Client)
           (fs : flag.FlagSet) (cmdLine : list string) : flag.FlagSet * run :=
  match cmdLine with
  | [] => (fs, {| result := Panic "slice bounds out of range [1:0]"; requests := 0 |})
  | _ :: arguments =>
      match flag.Parse lib fs arguments with
      | (fs', Some err) =>
          (fs', done (Sprintf "could not parse arguments: %s" [ArgError err]) 3)
      | (fs', None) =>
          (fs', runCheck lib message c
                         (flag.String_ fs' "addr") (flag.String_ fs' "key")
                         (flag.String_ fs' "message") (flag.String_ fs' "interval")
                         (flag.Float64 fs' "warn") (flag.Float64 fs' "error"))
      end
  end.

(** A worker thread executing the checks it claims, one after the other,
    each against its own backend answers. *)
Fixpoint worker (lib : GoLib) (message : string) (fs : flag.FlagSet)
         (claimed : list (list string * Client)) : list run :=
  match claimed with
  | [] => []
  | (cmdLine, c) :: claimed' =>
      let (fs', r) := execute lib message c fs cmdLine in
      r :: worker lib message fs' claimed'
  end.

Definition thread (lib : GoLib) (message : string)
           (claimed : list (list string * Client)) : list run :=
  worker lib message thread_flags claimed.

End legacy.

(** ** main.go: one turn of the worker loop against the store *)

Module worker.

Record Config := { DB : string; CheckerID : Z; Wait : Z; Jobs : Z }.

(** What the world decides during one turn (lines 110-171). *)
Record World := {
  begin_error : option error;
  now : Z;
  (** rows locked by other transactions *)
  locked : list Z;
  (** an error of the query other than the absence of a row *)
  query_error : option error;
  (** what the driver hands to [States.Scan] for the [states] column *)
  delivered : Checker.ActiveCheck -> States.src;
  client : Client;
  update_error : option error;
  insert_error : option error;
  commit_ok : bool
}.

(** How a turn ends: the transaction could not be started, the thread
    rolled back and slept (no row, or the row could not be scanned), it
    rolled back after a failed statement, or it committed. *)
Inductive turn : Type :=
| NotStarted
| Slept
| RolledBack
| Committed.

Definition due (config : Config) (w : World) (r : Checker.ActiveCheck) : bool :=
  (Checker.next_time r <? now w) && Checker.enabled r
  && (Checker.checker_id r =? CheckerID config)
  && negb (existsb (Z.eqb (Checker.check_id r)) (locked w)).

Definition select_next (config : Config) (w : World) (db : Checker.DB)
  : option Checker.ActiveCheck :=
  Checker.earliest (filter (due config w) (Checker.active_checks db)).

(** The update statement is the one of [Checker.Next]; it depends on the
    current time only. *)
Definition update_row (w : World) (state : Z) (m : text) (toOK : bool)
           (r : Checker.ActiveCheck) : Checker.ActiveCheck :=
  {| Checker.check_id := Checker.check_id r;
     Checker.cmdLine := Checker.cmdLine r;
     Checker.states := state :: firstn 4 (Checker.states r);
     Checker.mapping_id := Checker.mapping_id r;
     Checker.checker_id := Checker.checker_id r;
     Checker.enabled := Checker.enabled r;
     Checker.next_time := now w + Checker.intval r;
     Checker.intval := Checker.intval r;
     Checker.msg := m;
     Checker.acknowledged := if toOK then false else Checker.acknowledged r;
     Checker.state_since := match Checker.states r with
                            | top :: _ => if state =? top then Checker.state_since r
                                          else now w
                            | [] => now w
                            end |}.

Definition update (w : World) (id state : Z) (m : text) (toOK : bool)
           (db : Checker.DB) : Checker.DB :=
  {| Checker.active_checks :=
       map (fun r => if Checker.check_id r =? id then update_row w state m toOK r
                     else r)
           (Checker.active_checks db);
     Checker.checks_notify := Checker.checks_notify db;
     Checker.mapping_level := Checker.mapping_level db;
     Checker.notifications := Checker.notifications db |}.

(** [insert into notifications ... select $1, ac.states, $2, $3,
    cn.notifier_id, $4 from active_checks ac join checks_notify cn ...
    where ac.check_id = $1 and ac.acknowledged = false]. *)
Definition insert_notifications (hostname : string) (id mapId : Z) (m : text)
           (db : Checker.DB) : Checker.DB :=
  {| Checker.active_checks := Checker.active_checks db;
     Checker.checks_notify := Checker.checks_notify db;
     Checker.mapping_level := Checker.mapping_level db;
     Checker.notifications :=
       Checker.notifications db ++
       flat_map (fun ac =>
                   if (Checker.check_id ac =? id) && negb (Checker.acknowledged ac)
                   then
                     map (fun cn =>
                            {| Checker.n_check_id := id;
                               Checker.n_states := Checker.states ac;
                               Checker.n_output := m;
                               Checker.n_mapping_id := mapId;
                               Checker.n_notifier_id := Checker.cn_notifier_id cn;
                               Checker.n_check_host := hostname |})
                         (filter (fun cn => Checker.cn_check_id cn =? Checker.check_id ac)
                                 (Checker.checks_notify db))
                   else [])
                (Checker.active_checks db) |}.

(** One turn of the loop of a worker thread: how it ends, the flag set
    and the store it leaves.  [message] is the process-wide flag. *)
Definition iteration (lib : GoLib) (message hostname : string) (config : Config)
           (w : World) (fs : flag.FlagSet) (db : Checker.DB)
  : outcome (turn * flag.FlagSet * Checker.DB) :=
  match begin_error w with
  | Some _ => Ret (NotStarted, fs, db)
  | None =>
      match query_error w with
      | Some _ => Ret (Slept, fs, db)
      | None =>
          match select_next config w db with
          | None => Ret (Slept, fs, db)
          | Some row =>
              match States.Scan [] (delivered w row) with
              | (_, Some _) => Ret (Slept, fs, db)
              | (states, None) =>
                  let (fs', run) :=
                    legacy.execute lib message (client w) fs (Checker.cmdLine row) in
                  result <- legacy.result run ;;
                  let (m, state) := result in
                  match update_error w with
                  | Some _ => Ret (RolledBack, fs', db)
                  | None =>
                      let db1 := update w (Checker.check_id row) state m
                                        (States.ToOK states) db in
                      match insert_error w with
                      | Some _ => Ret (RolledBack, fs', db)
                      | None =>
                          let db2 := insert_notifications hostname (Checker.check_id row)
                                       (Checker.mapping_id row) m db1 in
                          Ret (Committed, fs', if commit_ok w then db2 else db)
                      end
                  end
              end
          end
      end
  end.

End worker.

(** ** A stand-in for the library and the backend, to run examples

    Numbers are read as plain decimal integers, every address parses, and
    a body is looked up in a table of named payloads. *)

Module double.

Definition float_of_Z (n : Z) : float :=
  if n <? 0 then (- PrimFloat.of_uint63 (Uint63.of_Z (- n)))%float
  else PrimFloat.of_uint63 (Uint63.of_Z n).

Definition bodies : list (string * Result) :=
  [ ("scenario-A", [ {| Datapoints := [ [Some 5%float; Some 100%float];
                                         [Some 3%float; Some 160%float] ] |} ]);
    ("scenario-B", [ {| Datapoints := [ [Some 5%float; Some 100%float];
                                         [Some 9%float; Some 160%float] ] |} ]);
    ("below-zero", [ {| Datapoints := [ [Some (-1)%float; Some 100%float] ] |} ]);
    ("no-values", [ {| Datapoints := [ [None; Some 100%float] ] |} ]) ]%string.

Fixpoint find (raw : string) (table : list (string * Result)) : Result + error :=
  match table with
  | [] => inr (Lit "invalid character")
  | (name, payload) :: table' =>
      if String.eqb name raw then inl payload else find raw table'
  end.

Definition lib : GoLib :=
  {| ParseFloat := fun s =>
       match strconv.Atoi s with
       | inl n => (float_of_Z n, None)
       | inr err => (0%float, Some err)
       end;
     ParseInt := fun s =>
       match strconv.Atoi s with
       | inl n => (n, None)
       | inr err => (0, Some err)
       end;
     url_Parse := fun _ => None;
     json_Unmarshal := fun raw => find raw bodies |}.

(** A backend that answers every request with status [status] and body
    [raw]. *)
Definition always (status : Z) (raw : string) : Client :=
  fun _ _ => inl {| StatusCode := status; body := BodyRead raw |}.

(** A backend that answers with the given statuses in turn, then 200. *)
Definition scripted (statuses : list Z) (raw : string) : Client :=
  fun i _ => inl {| StatusCode := nth i statuses 200; body := BodyRead raw |}.

Definition unreachable : Client := fun _ _ => inr (Lit "connection refused").

Definition check (cmd : list string) : Check :=
  {| Command := cmd; ExitCodes := []; monzero.id := 1; mappingId := 1 |}.

Definition ctx : Context := {| Err := NoError |}.

(** A store with one due check, a notifier and the default mapping. *)
Definition row (history : list Z) : Checker.ActiveCheck :=
  {| Checker.check_id := 7;
     Checker.cmdLine := ["check_graphite"; "-addr"; "http://graphite"; "-key"; "a.b"]%string;
     Checker.states := history;
     Checker.mapping_id := 1;
     Checker.checker_id := 0;
     Checker.enabled := true;
     Checker.next_time := 10;
     Checker.intval := 60;
     Checker.msg := Lit "";
     Checker.acknowledged := true;
     Checker.state_since := 5 |}.

Definition store (history : list Z) : Checker.DB :=
  {| Checker.active_checks := [row history];
     Checker.checks_notify :=
       [ {| Checker.cn_check_id := 7; Checker.cn_notifier_id := 3;
            Checker.cn_enabled := true |} ];
     Checker.mapping_level :=
       map (fun s => {| Checker.ml_mapping_id := 1; Checker.ml_source := s;
                        Checker.ml_target := s |}) [0; 1; 2; 3];
     Checker.notifications := [] |}.

Definition world (e : ctx_error) : Checker.World :=
  {| Checker.begin_error := None;
     Checker.now := 100;
     Checker.locked := [];
     Checker.query_error := None;
     Checker.ctx_err := e;
     Checker.update_error := None;
     Checker.insert_error := None;
     Checker.commit_ok := true |}.

(** The checker of the daemon, with a logger. *)
Definition checker (client : Client) : Checker.Checker :=
  {| Checker.id := 0;
     Checker.executor := fun check ctx => runner.result (runner.runCheck lib client check ctx);
     Checker.timeout := 30 * 1000000000;
     Checker.ident := "monitor-1";
     Checker.logger := Some Checker.slog_Logger |}.

(** The configuration and the world of a turn of the worker loop of
    main.go, the driver delivering the history in the encoding of
    [States.Value]. *)
Definition config : worker.Config :=
  {| worker.DB := "dbname=monzero"; worker.CheckerID := 0;
     worker.Wait := 30; worker.Jobs := 4 |}.

Definition turn_world (client : Client) : worker.World :=
  {| worker.begin_error := None;
     worker.now := 100;
     worker.locked := [];
     worker.query_error := None;
     worker.delivered := fun r => States.Bytes (States.Value (Checker.states r));
     worker.client := client;
     worker.update_error := None;
     worker.insert_error := None;
     worker.commit_ok := true |}.

(** A command that exits with [status], and one that is killed by
    [signal], after writing [output]. *)
Definition exits (status : Z) (output : string) : Exec.Command_ :=
  fun _ _ _ =>
    if status =? 0 then Exec.Succeeded output
    else Exec.Failed (Sprintf "exit status %d" [ArgInt status])
                     (Some (Exec.WaitStatus (Z.shiftl status 8))) output.

Definition killed (signal : Z) (output : string) : Exec.Command_ :=
  fun _ _ _ =>
    Exec.Failed (Lit "signal: killed") (Some (Exec.WaitStatus signal)) output.

(** The store a call of [Next] leaves behind. *)
Definition after (c : Checker.Checker) (w : Checker.World) (db : Checker.DB)
  : Checker.DB :=
  match Checker.Next c w db with
  | Ret (db', _) => db'
  | Panic _ => db
  end.

End double.

(** * Properties *)

(** ** Threshold evaluation *)

Section Threshold.

Import threshold.

Variables levelWarn levelErr : float.

Lemma points_app (st : scan) (ps qs : list (list (option float))) :
  points levelWarn levelErr st (ps ++ qs) =
  (st' <- points levelWarn levelErr st ps ;; points levelWarn levelErr st' qs).
Proof.
  revert st. induction ps as [|p ps IH]; intros st; simpl; [reflexivity|].
  destruct (point_step levelWarn levelErr st p); simpl; [apply IH | reflexivity].
Qed.

(** The nested loops visit the points of all targets in order. *)
Lemma targets_points (st : scan) (payload : Result) :
  targets levelWarn levelErr st payload =
  points levelWarn levelErr st (all_points payload).
Proof.
  revert st. induction payload as [|t payload IH]; intros st; [reflexivity|].
  unfold all_points. simpl. rewrite points_app.
  destruct (points levelWarn levelErr st (Datapoints t)); simpl; [|reflexivity].
  apply IH.
Qed.

Lemma point_step_keeps_2 (st st' : scan) (p : list (option float)) :
  exitCode st = 2 ->
  point_step levelWarn levelErr st p = Ret st' ->
  exitCode st' = 2.
Proof.
  intros H2. unfold point_step.
  destruct p as [|[v|] p']; try discriminate.
  - rewrite H2. simpl.
    destruct (levelErr <? levelWarn)%float.
    + destruct (v <=? levelErr)%float, (v <=? levelWarn)%float;
        intros [= <-]; reflexivity.
    + destruct (levelErr <=? v)%float, (levelWarn <=? v)%float;
        intros [= <-]; reflexivity.
  - intros [= <-]. exact H2.
Qed.

Lemma points_keep_2 (ps : list (list (option float))) (st st' : scan) :
  exitCode st = 2 ->
  points levelWarn levelErr st ps = Ret st' ->
  exitCode st' = 2.
Proof.
  revert st. induction ps as [|p ps IH]; intros st H2; simpl.
  - intros [= <-]. exact H2.
  - destruct (point_step levelWarn levelErr st p) as [st1|] eqn:E; simpl;
      [|discriminate].
    apply IH. exact (point_step_keeps_2 _ _ _ H2 E).
Qed.

Lemma point_step_keeps_1 (st st' : scan) (p : list (option float)) :
  exitCode st = 1 ->
  point_step levelWarn levelErr st p = Ret st' ->
  exitCode st' = 1.
Proof.
  intros H1. unfold point_step.
  destruct p as [|[v|] p']; try discriminate.
  - rewrite H1. simpl. rewrite !andb_false_r.
    destruct (levelErr <? levelWarn)%float; intros [= <-]; reflexivity.
  - intros [= <-]. exact H1.
Qed.

Lemma points_keep_1 (ps : list (list (option float))) (st st' : scan) :
  exitCode st = 1 ->
  points levelWarn levelErr st ps = Ret st' ->
  exitCode st' = 1.
Proof.
  revert st. induction ps as [|p ps IH]; intros st H1; simpl.
  - intros [= <-]. exact H1.
  - destruct (point_step levelWarn levelErr st p) as [st1|] eqn:E; simpl;
      [|discriminate].
    apply IH. exact (point_step_keeps_1 _ _ _ H1 E).
Qed.

Lemma point_step_from_0 (st st' : scan) (v : float) (p : list (option float)) :
  exitCode st = 0 ->
  point_step levelWarn levelErr st (Some v :: p) = Ret st' ->
  exitCode st' = severity levelWarn levelErr v.
Proof.
  intros H0. unfold point_step, severity. rewrite H0. simpl.
  rewrite !andb_true_r.
  destruct (levelErr <? levelWarn)%float; intros [= <-]; reflexivity.
Qed.

Lemma severity_cases (v : float) :
  severity levelWarn levelErr v = 0 \/ severity levelWarn levelErr v = 1
  \/ severity levelWarn levelErr v = 2.
Proof.
  unfold severity.
  destruct (levelErr <? levelWarn)%float;
    [destruct (v <=? levelErr)%float, (v <=? levelWarn)%float
    |destruct (levelErr <=? v)%float, (levelWarn <=? v)%float]; auto.
Qed.

(** What the scan computes: the exit code is the severity of the first
    value that raises an alarm; later values do not change it. *)
Lemma points_first_alarm (ps : list (list (option float))) (st st' : scan) :
  exitCode st = 0 ->
  points levelWarn levelErr st ps = Ret st' ->
  exitCode st' = first_alarm levelWarn levelErr (values ps).
Proof.
  revert st. induction ps as [|p ps IH]; intros st H0; simpl.
  - intros [= <-]. exact H0.
  - destruct (point_step levelWarn levelErr st p) as [st1|] eqn:E; simpl;
      [|discriminate].
    destruct p as [|[v|] p'].
    + discriminate E.
    + pose proof (point_step_from_0 _ _ _ _ H0 E) as Hs.
      simpl values. simpl first_alarm.
      destruct (severity_cases v) as [C|[C|C]]; rewrite C in *; simpl.
      * apply IH. exact Hs.
      * apply points_keep_1. exact Hs.
      * apply points_keep_2. exact Hs.
    + injection E as <-. apply IH. exact H0.
Qed.

(** The scan ends with exit code 0 exactly when no value raises an
    alarm. *)
Lemma points_code_0 (ps : list (list (option float))) (st' : scan) :
  points levelWarn levelErr start ps = Ret st' ->
  (exitCode st' = 0 <->
   forall v, In v (values ps) -> severity levelWarn levelErr v = 0).
Proof.
  intros E. rewrite (points_first_alarm ps start st' eq_refl E). clear E.
  induction (values ps) as [|v vs IH]; simpl.
  - split; [intros _ v []|reflexivity].
  - destruct (severity levelWarn levelErr v =? 0) eqn:S0.
    + apply Z.eqb_eq in S0. rewrite IH. split.
      * intros H x [<-|Hx]; auto.
      * intros H x Hx. apply H. right. exact Hx.
    + apply Z.eqb_neq in S0. split.
      * intros H. contradiction.
      * intros H. exfalso. apply S0. apply H. left. reflexivity.
Qed.

End Threshold.

(** C7: within one evaluation of a series payload by the HTTP threshold
    executor, exit code 2 is sticky.  Once the scan has reached exit code 2
    after some of the points, none of the later points changes it, and the
    result returned for the payload has exit code 2, by [runner.runCheck]
    as by the [runCheck] of main.go. *)
Theorem exit_code_2_is_sticky (lib : GoLib) (levelWarn levelErr : float)
        (message raw : string) (payload : Result)
        (earlier later : list (list (option float))) (st : threshold.scan) :
  json_Unmarshal lib raw = inl payload ->
  threshold.all_points payload = earlier ++ later ->
  threshold.points levelWarn levelErr threshold.start earlier = Ret st ->
  threshold.exitCode st = 2 ->
  (forall st', threshold.points levelWarn levelErr st later = Ret st' ->
               threshold.exitCode st' = 2)
  /\ (forall r, runner.evaluate lib levelWarn levelErr message raw = Ret r ->
                ExitCode r = 2)
  /\ (forall m code,
         legacy.evaluate lib message levelWarn levelErr raw = Ret (m, code) ->
         code = 2).
Proof.
  intros Hjson Hsplit Hearlier H2.
  assert (Hscan : forall st',
             threshold.targets levelWarn levelErr threshold.start payload = Ret st' ->
             threshold.exitCode st' = 2).
  { intros st'. rewrite targets_points, Hsplit, points_app, Hearlier. simpl.
    apply points_keep_2. exact H2. }
  split; [|split].
  - intros st'. apply points_keep_2. exact H2.
  - intros r. unfold runner.evaluate. rewrite Hjson.
    destruct (threshold.targets levelWarn levelErr threshold.start payload)
      as [st'|] eqn:E; simpl; [|discriminate].
    destruct (threshold.curVal st'); intros [= <-]; simpl;
      [exact (Hscan st' eq_refl)|reflexivity].
  - intros m code. unfold legacy.evaluate. rewrite Hjson.
    destruct (threshold.targets levelWarn levelErr threshold.start payload)
      as [st'|] eqn:E; simpl; [|discriminate].
    destruct (threshold.curVal st'); intros [= _ <-];
      [exact (Hscan st' eq_refl)|reflexivity].
Qed.

Lemma exit_code_2_is_sticky_witness :
  (forall st',
      threshold.points 1 4 {| threshold.curVal := Some 5%float; threshold.exitCode := 2 |}
                       [[Some 3%float; Some 160%float]] = Ret st' ->
      threshold.exitCode st' = 2)
  /\ (forall r, runner.evaluate double.lib 1 4 "current value: %f" "scenario-A" = Ret r ->
                ExitCode r = 2)
  /\ (forall m code,
         legacy.evaluate double.lib "current value: %f" 1 4 "scenario-A" = Ret (m, code) ->
         code = 2).
Proof.
  apply (exit_code_2_is_sticky double.lib 1 4 "current value: %f" "scenario-A"
           [ {| Datapoints := [ [Some 5%float; Some 100%float];
                                [Some 3%float; Some 160%float] ] |} ]
           [[Some 5%float; Some 100%float]] [[Some 3%float; Some 160%float]]);
    reflexivity.
Defined.

(** C1, at the failing input (scenario B of the specification): in
    ascending direction with warning level 4 and error level 8 the points 5
    and 9 are scanned; 9 has severity 2, but since 5 already set exit code
    1 the scan and the executor end with exit code 1 while reporting the
    value 9.  The same happens in descending direction with levels 4 and 2
    and the points 3 and 1. *)
Theorem error_after_warning_stays_warning :
  threshold.severity 4 8 9 = 2
  /\ threshold.targets 4 8 threshold.start
       [ {| Datapoints := [ [Some 5%float; Some 100%float];
                            [Some 9%float; Some 160%float] ] |} ]
     = Ret {| threshold.curVal := Some 9%float; threshold.exitCode := 1 |}
  /\ runner.runCheck double.lib (double.always 200 "scenario-B")
       (double.check ["check_graphite"; "-addr"; "http://graphite"; "-key"; "a.b";
                      "-warn"; "4"; "-error"; "8"]%string) double.ctx
     = {| runner.result :=
            Ret {| ExitCode := 1;
                   Message := Sprintf ("current value: %f" ++ newline) [ArgFloat 9] |};
          runner.requests := 1 |}
  /\ legacy.runCheck double.lib "current value: %f" (double.always 200 "scenario-B")
       "http://graphite" "a.b" "current value: %f" "60s" 4 8
     = {| legacy.result :=
            Ret (Sprintf ("current value: %f" ++ newline) [ArgFloat 9], 1);
          legacy.requests := 1 |}
  /\ threshold.severity 4 2 1 = 2
  /\ threshold.targets 4 2 threshold.start
       [ {| Datapoints := [ [Some 3%float; Some 100%float];
                            [Some 1%float; Some 160%float] ] |} ]
     = Ret {| threshold.curVal := Some 1%float; threshold.exitCode := 1 |}.
Proof. repeat split; vm_compute; reflexivity. Qed.

(** ** The coordinator *)

Section Coordinator.

Import Checker.

Variables (c : Checker) (w : World) (db : DB).

(** A call of [Next] that returns no error after a successful commit
    claimed a row, ran the executor and persisted its result. *)
Lemma Next_committed (db' : DB) :
  Next c w db = Ret (db', None) ->
  commit_ok w = true ->
  exists row result,
    select_next c w db = Some row
    /\ run_executor c w (claimed row) = Ret result
    /\ db' = insert_notifications c (claimed row) (Message result)
               (update w (check_id row) (ExitCode result) (Message result)
                       (backToOkay (states row) (ExitCode result)) db).
Proof.
  unfold Next. intros H Hcommit.
  destruct (begin_error w); [discriminate|].
  destruct (query_error w); [discriminate|].
  destruct (select_next c w db) as [row|]; [|discriminate].
  destruct (run_executor c w (claimed row)) as [result|] eqn:E; simpl in H;
    [|discriminate].
  destruct (logger c); [|discriminate].
  destruct (update_error w); [discriminate|].
  destruct (insert_error w); [discriminate|].
  rewrite Hcommit in H. injection H as <-.
  exists row, result. auto.
Qed.

(** Nothing is persisted unless [Next] returns without an error. *)
Lemma Next_error_rolls_back (db' : DB) (err : error) :
  Next c w db = Ret (db', Some err) -> db' = db.
Proof.
  unfold Next. intros H.
  destruct (begin_error w); [injection H as <- _; reflexivity|].
  destruct (query_error w); [injection H as <- _; reflexivity|].
  destruct (select_next c w db) as [row|]; [|injection H as <- _; reflexivity].
  destruct (run_executor c w (claimed row)) as [result|]; simpl in H;
    [|discriminate].
  destruct (logger c); [|discriminate].
  destruct (update_error w); [injection H as <- _; reflexivity|].
  destruct (insert_error w); [injection H as <- _; reflexivity|].
  discriminate.
Qed.

Lemma updated_rows (cid code : Z) (m : text) (flag : bool) (check : Check)
      (r' : ActiveCheck) :
  In r' (active_checks (insert_notifications c check m (update w cid code m flag db))) ->
  check_id r' = cid ->
  exists r, In r (active_checks db) /\ check_id r = cid
            /\ r' = update_row w code m flag r.
Proof.
  simpl. rewrite in_map_iff. intros [r [Hr Hin]] Hid.
  destruct (check_id r =? cid) eqn:E.
  - exists r. apply Z.eqb_eq in E. auto.
  - subst r'. apply Z.eqb_neq in E. contradiction.
Qed.

End Coordinator.

Lemma backToOkay_true (ExitCodes : list Z) (code : Z) :
  Checker.backToOkay ExitCodes code = true <->
  (ExitCodes = [] /\ code = 0)
  \/ (exists top rest, ExitCodes = top :: rest /\ top > 0 /\ code = 0).
Proof.
  unfold Checker.backToOkay. destruct ExitCodes as [|top rest].
  - rewrite Z.eqb_eq. split.
    + auto.
    + intros [[_ H]|[top [rest [H _]]]]; [exact H|discriminate].
  - rewrite andb_true_iff, Z.eqb_eq, Z.gtb_gt. split.
    + intros [Ht Hc]. right. exists top, rest. auto.
    + intros [[H _]|[top' [rest' [H [Ht Hc]]]]]; [discriminate|].
      injection H as -> _. auto.
Qed.

(** [States.ToOK], applied to a history onto which the new code was pushed
    with [States.Add], computes the same flag. *)
Lemma ToOK_after_Add (s : list Z) (code : Z) :
  States.ToOK (States.Add s code) = Checker.backToOkay s code.
Proof.
  unfold States.Add, Checker.backToOkay. destruct s as [|top rest].
  - reflexivity.
  - assert (H : exists n, Z.to_nat (if States.len (top :: rest) <? 6
                                    then States.len (top :: rest) else 5) = S n).
    { unfold States.len. destruct (Z.of_nat (List.length (top :: rest)) <? 6).
      - exists (List.length rest). simpl List.length. lia.
      - exists 4%nat. reflexivity. }
    destruct H as [n ->]. simpl. apply andb_comm.
Qed.



Lemma earliest_In (rows : list Checker.ActiveCheck) (r : Checker.ActiveCheck) :
  Checker.earliest rows = Some r -> In r rows.
Proof.
  revert r. induction rows as [|r0 rows IH]; intros r; simpl; [discriminate|].
  destruct (Checker.earliest rows) as [r'|].
  - destruct (Checker.next_time r' <? Checker.next_time r0); intros [= <-]; auto.
  - intros [= <-]. auto.
Qed.

Lemma select_next_In (c : Checker.Checker) (w : Checker.World) (db : Checker.DB)
      (row : Checker.ActiveCheck) :
  Checker.select_next c w db = Some row ->
  In row (Checker.active_checks db) /\ Checker.due c w row = true.
Proof.
  unfold Checker.select_next. intros H.
  apply earliest_In in H. apply filter_In in H. exact H.
Qed.

Lemma NewChecker_daemon (client : Client) :
  Checker.NewChecker (daemon.config double.lib client "monitor-1"
                                    (Some Checker.slog_Logger))
  = inl (double.checker client).
Proof. reflexivity. Qed.

(** With the configuration of [main], which sets no logger, [Next] does
    not get past the debug message: once a check is claimed and the
    executor has returned, the call panics and nothing is persisted. *)
Lemma Next_without_logger (lib : GoLib) (client : Client) (hostname : string)
      (c : Checker.Checker) (w : Checker.World) (db : Checker.DB)
      (row : Checker.ActiveCheck) (result : CheckResult) :
  Checker.NewChecker (daemon.config lib client hostname None) = inl c ->
  Checker.begin_error w = None -> Checker.query_error w = None ->
  Checker.select_next c w db = Some row ->
  Checker.run_executor c w (Checker.claimed row) = Ret result ->
  Checker.Next c w db = Panic "nil pointer dereference".
Proof.
  intros [= <-] Hb Hq Hsel Hrun. unfold Checker.Next.
  rewrite Hb, Hq, Hsel, Hrun. reflexivity.
Qed.

(** A call of [Next] whose statements all succeed returns without error. *)
Lemma Next_returns (c : Checker.Checker) (w : Checker.World) (db : Checker.DB)
      (row : Checker.ActiveCheck) (result : CheckResult) :
  Checker.select_next c w db = Some row ->
  Checker.run_executor c w (Checker.claimed row) = Ret result ->
  Checker.logger c <> None ->
  Checker.begin_error w = None -> Checker.query_error w = None ->
  Checker.update_error w = None -> Checker.insert_error w = None ->
  exists db', Checker.Next c w db = Ret (db', None).
Proof.
  intros Hsel Hrun Hlog Hb Hq Hu Hi. unfold Checker.Next.
  rewrite Hb, Hq, Hsel, Hrun. simpl.
  destruct (Checker.logger c); [|congruence].
  rewrite Hu, Hi. eexists. reflexivity.
Qed.

(** C3: when the deadline of the executor's context has expired, the
    result the executor returned is replaced by exit code 2 with the
    message "check took longer than <timeout>".  A call of [Next] that
    commits persists exactly that: every row of the claimed check, and
    there is one, then has 2 as its most recent code and the timeout
    message, whatever the executor returned; and the call does return
    without error when the statements on the store succeed. *)
Theorem timeout_replaces_result (c : Checker.Checker) (w : Checker.World)
        (db : Checker.DB) (row : Checker.ActiveCheck) (r : CheckResult) :
  Checker.ctx_err w = DeadlineExceeded ->
  Checker.select_next c w db = Some row ->
  Checker.executor c (Checker.claimed row) {| Err := Checker.ctx_err w |} = Ret r ->
  Checker.run_executor c w (Checker.claimed row)
  = Ret {| ExitCode := 2;
           Message := Sprintf "check took longer than %s"
                              [ArgDuration (Checker.timeout c)] |}
  /\ (forall db',
        Checker.Next c w db = Ret (db', None) ->
        Checker.commit_ok w = true ->
        (exists r', In r' (Checker.active_checks db')
                    /\ Checker.check_id r' = Checker.check_id row)
        /\ forall r', In r' (Checker.active_checks db') ->
                      Checker.check_id r' = Checker.check_id row ->
                      hd_error (Checker.states r') = Some 2
                      /\ Checker.msg r' = Sprintf "check took longer than %s"
                                                  [ArgDuration (Checker.timeout c)])
  /\ (Checker.logger c <> None ->
      Checker.begin_error w = None -> Checker.query_error w = None ->
      Checker.update_error w = None -> Checker.insert_error w = None ->
      exists db', Checker.Next c w db = Ret (db', None)).
Proof.
  intros Hctx Hsel Hexec.
  assert (Hrun : Checker.run_executor c w (Checker.claimed row)
                 = Ret (Checker.timed_out c)).
  { unfold Checker.run_executor. cbn [Err]. rewrite Hexec. simpl.
    rewrite Hctx. reflexivity. }
  split; [exact Hrun|]. split.
  - intros db' HNext Hcommit.
    destruct (Next_committed c w db db' HNext Hcommit) as [row' [res [Hs [Hr Hdb]]]].
    rewrite Hsel in Hs. injection Hs as <-.
    rewrite Hrun in Hr. injection Hr as <-.
    split.
    + exists (Checker.update_row w 2 (Message (Checker.timed_out c))
                (Checker.backToOkay (Checker.states row) 2) row).
      split; [|reflexivity].
      rewrite Hdb. simpl. apply in_map_iff. exists row.
      rewrite Z.eqb_refl. split; [reflexivity|].
      apply (select_next_In c w db row Hsel).
    + intros r' Hin Hid. rewrite Hdb in Hin.
      destruct (updated_rows c w db _ _ _ _ _ r' Hin Hid) as [r0 [_ [_ ->]]].
      split; reflexivity.
  - apply (Next_returns c w db row _ Hsel Hrun).
Qed.

Lemma timeout_replaces_result_witness :
  let c := double.checker (double.always 200 "below-zero") in
  let w := double.world DeadlineExceeded in
  let db := double.store [0; 0] in
  Checker.run_executor c w (Checker.claimed (double.row [0; 0]))
  = Ret {| ExitCode := 2;
           Message := Sprintf "check took longer than %s"
                              [ArgDuration (Checker.timeout c)] |}
  /\ (forall db',
        Checker.Next c w db = Ret (db', None) ->
        Checker.commit_ok w = true ->
        (exists r', In r' (Checker.active_checks db')
                    /\ Checker.check_id r' = Checker.check_id (double.row [0; 0]))
        /\ forall r', In r' (Checker.active_checks db') ->
                      Checker.check_id r' = Checker.check_id (double.row [0; 0]) ->
                      hd_error (Checker.states r') = Some 2
                      /\ Checker.msg r' = Sprintf "check took longer than %s"
                                                  [ArgDuration (Checker.timeout c)])
  /\ (Checker.logger c <> None ->
      Checker.begin_error w = None -> Checker.query_error w = None ->
      Checker.update_error w = None -> Checker.insert_error w = None ->
      exists db', Checker.Next c w db = Ret (db', None)).
Proof.
  intros c w db.
  apply (timeout_replaces_result c w db (double.row [0; 0])
           {| ExitCode := 0;
              Message := Sprintf ("current value: %f" ++ newline) [ArgFloat (-1)] |});
    reflexivity.
Defined.

(** ** The state history *)

Section Decimal.

Import strconv.
Import DecimalString.

Lemma every_app (P : ascii -> bool) (s t : string) :
  every P (s ++ t)%string = every P s && every P t.
Proof.
  induction s as [|c s IH]; simpl; [reflexivity|].
  rewrite IH. apply andb_assoc.
Qed.

Lemma every_uint (P : ascii -> bool) (d : Decimal.uint) :
  numeric P -> every P (NilEmpty.string_of_uint d) = true.
Proof.
  unfold numeric. simpl. rewrite !andb_true_iff.
  intros [? [? [? [? [? [? [? [? [? [? [? _]]]]]]]]]]].
  induction d; simpl; rewrite ?IHd, ?andb_true_r; assumption || reflexivity.
Qed.

Lemma every_itoa (P : ascii -> bool) (n : Z) :
  numeric P -> every P (itoa n) = true.
Proof.
  intros HP. assert (H0 : P "0"%char = true).
  { unfold numeric in HP. simpl in HP. rewrite !andb_true_iff in HP. tauto. }
  assert (Hm : P "-"%char = true).
  { unfold numeric in HP. simpl in HP. rewrite !andb_true_iff in HP. tauto. }
  assert (Hu : forall d, every P (NilZero.string_of_uint d) = true).
  { intros d. unfold NilZero.string_of_uint.
    destruct d; try (apply (every_uint P _ HP)).
    simpl. rewrite H0. reflexivity. }
  unfold itoa. destruct (Z.to_int n); simpl; rewrite ?Hm; apply Hu.
Qed.

Ltac read_digit :=
  cbn [NilEmpty.string_of_uint digits Pos.of_uint_acc Pos.of_uint];
  match goal with
  | |- context [digit_value ?c] =>
      let v := eval vm_compute in (digit_value c) in
      change (digit_value c) with v
  end;
  cbv iota.

Lemma digits_acc (d : Decimal.uint) (acc : positive) :
  digits (NilEmpty.string_of_uint d) (Z.pos acc)
  = Some (Z.pos (Pos.of_uint_acc d acc)).
Proof.
  revert acc. induction d; intros acc; [reflexivity|..]; read_digit;
    match goal with
    | |- digits _ ?n = Some (Z.pos (Pos.of_uint_acc _ ?q)) =>
        replace n with (Z.pos q) by lia; apply IHd
    end.
Qed.

Lemma digits_uint (d : Decimal.uint) :
  digits (NilEmpty.string_of_uint d) 0 = Some (Z.of_N (Pos.of_uint d)).
Proof.
  induction d; [reflexivity|exact IHd|..]; read_digit;
    match goal with
    | |- digits _ ?n = Some (Z.of_N (N.pos (Pos.of_uint_acc _ ?q))) =>
        change n with (Z.pos q); apply digits_acc
    end.
Qed.

Lemma Atoi_uint (d : Decimal.uint) :
  d <> Decimal.Nil ->
  Atoi (NilEmpty.string_of_uint d)
  = in_range (NilEmpty.string_of_uint d) (Z.of_N (Pos.of_uint d)).
Proof.
  intros Hd. pose proof (digits_uint d) as H.
  destruct d; [contradiction|..];
    unfold Atoi; cbn [NilEmpty.string_of_uint] in *; rewrite H; reflexivity.
Qed.

End Decimal.

Lemma string_of_uint_nonnil (d : Decimal.uint) :
  d <> Decimal.Nil ->
  DecimalString.NilZero.string_of_uint d = DecimalString.NilEmpty.string_of_uint d
  /\ exists c s, DecimalString.NilEmpty.string_of_uint d = String c s.
Proof.
  intros Hd. destruct d; [contradiction|..]; split; try reflexivity;
    simpl; eauto.
Qed.

Lemma in_range_int (s : string) (n : Z) :
  Go.is_int n -> strconv.in_range s n = inl n.
Proof.
  unfold Go.is_int, strconv.in_range. intros [Hlo Hhi].
  apply Z.leb_le in Hlo, Hhi. rewrite Hlo, Hhi. reflexivity.
Qed.

(** Reading back what [%d] printed. *)
Lemma Atoi_itoa (n : Z) : Go.is_int n -> strconv.Atoi (strconv.itoa n) = inl n.
Proof.
  intros Hn. destruct n as [|p|p].
  - reflexivity.
  - unfold strconv.itoa. simpl Z.to_int. cbn [DecimalString.NilZero.string_of_int].
    destruct (string_of_uint_nonnil _ (DecimalPos.Unsigned.to_uint_nonnil p))
      as [-> _].
    rewrite Atoi_uint by apply DecimalPos.Unsigned.to_uint_nonnil.
    rewrite DecimalPos.Unsigned.of_to. apply in_range_int. exact Hn.
  - unfold strconv.itoa. simpl Z.to_int. cbn [DecimalString.NilZero.string_of_int].
    destruct (string_of_uint_nonnil _ (DecimalPos.Unsigned.to_uint_nonnil p))
      as [-> [c [s E]]].
    unfold strconv.Atoi. cbn [Ascii.eqb Bool.eqb orb].
    pose proof (digits_uint (Pos.to_uint p)) as Hd.
    rewrite DecimalPos.Unsigned.of_to in Hd.
    rewrite E in *. rewrite Hd. apply in_range_int. exact Hn.
Qed.

Section Encoding.

Import strconv bytes States.

Lemma TrimRight_closing (body : string) :
  every (fun c => negb (brace c)) body = true ->
  bytes.TrimRight brace (body ++ "}") = body.
Proof.
  induction body as [|c body IH]; simpl; [reflexivity|].
  rewrite andb_true_iff, negb_true_iff. intros [Hc Hbody].
  rewrite (IH Hbody). destruct body; [rewrite Hc|]; reflexivity.
Qed.

Lemma Trim_braces (body : string) :
  every (fun c => negb (brace c)) body = true ->
  bytes.Trim (String "{" body ++ "}") "{}" = body.
Proof.
  intros H. unfold bytes.Trim. fold brace.
  change (String "{" body ++ "}")%string with (String "{" (body ++ "}")).
  cbn [bytes.TrimRight]. rewrite (TrimRight_closing body H).
  destruct body as [|c body]; [reflexivity|].
  change (brace "{") with true. cbn [bytes.TrimLeft].
  change (brace "{") with true. cbv iota. cbn [bytes.TrimLeft].
  simpl in H. rewrite andb_true_iff, negb_true_iff in H. destruct H as [-> _].
  reflexivity.
Qed.

Lemma Split_piece (piece : string) :
  every (fun c => negb (comma c)) piece = true ->
  bytes.Split piece "," = [piece].
Proof.
  induction piece as [|c piece IH]; simpl; [reflexivity|].
  rewrite andb_true_iff, negb_true_iff. unfold comma at 1. intros [-> H].
  rewrite (IH H). reflexivity.
Qed.

Lemma Split_pieces (piece rest : string) :
  every (fun c => negb (comma c)) piece = true ->
  bytes.Split (piece ++ String "," rest) "," = piece :: bytes.Split rest ",".
Proof.
  induction piece as [|c piece IH]; simpl; [reflexivity|].
  rewrite andb_true_iff, negb_true_iff. unfold comma at 1. intros [-> H].
  rewrite (IH H). reflexivity.
Qed.

Lemma append_assoc (a b c : string) : ((a ++ b) ++ c = a ++ (b ++ c))%string.
Proof. induction a as [|x a IH]; simpl; [reflexivity|]. rewrite IH. reflexivity. Qed.

Lemma append_nil (a : string) : (a ++ "")%string = a.
Proof. induction a as [|x a IH]; simpl; [|rewrite IH]; reflexivity. Qed.

Lemma write_joined (s : States) (last i : Z) (buf : string) :
  last = i + len s ->
  write last i s buf = (buf ++ joined s)%string.
Proof.
  revert i buf. induction s as [|state s IH]; intros i buf Hlast.
  - simpl. symmetry. apply append_nil.
  - cbn [write]. unfold len in *. cbn [List.length] in Hlast.
    rewrite IH by lia. destruct s as [|state' s].
    + replace (i <? last - 1) with false by (symmetry; apply Z.ltb_ge; simpl in Hlast; lia).
      cbn [joined]. apply append_nil.
    + replace (i <? last - 1) with true
        by (symmetry; apply Z.ltb_lt; cbn [List.length] in Hlast; lia).
      cbn [joined]. rewrite !append_assoc. reflexivity.
Qed.

Lemma every_joined (P : ascii -> bool) (s : States) :
  numeric P -> P ","%char = true -> every P (joined s) = true.
Proof.
  intros HP Hc. induction s as [|state s IH]; [reflexivity|].
  destruct s as [|state' s].
  - apply every_itoa. exact HP.
  - cbn [joined] in *. rewrite every_app. cbn [every].
    rewrite (every_itoa P state HP), Hc, IH. reflexivity.
Qed.

Lemma parse_joined (s : States) :
  s <> [] -> Forall Go.is_int s ->
  parse (bytes.Split (joined s) ",") = inl s.
Proof.
  induction s as [|state s IH]; [congruence|]. intros _ Hs.
  inversion Hs as [|? ? Hstate Hs']; subst.
  destruct s as [|state' s].
  - cbn [joined]. rewrite Split_piece by (apply every_itoa; reflexivity).
    simpl. rewrite (Atoi_itoa state Hstate). reflexivity.
  - cbn [joined] in *. rewrite Split_pieces by (apply every_itoa; reflexivity).
    cbn [parse]. rewrite (Atoi_itoa state Hstate).
    rewrite IH by (congruence || assumption). reflexivity.
Qed.

(** A history that is not empty is read back from its encoding exactly. *)
Lemma Scan_Value (s s0 : States) :
  s <> [] -> Forall Go.is_int s ->
  Scan s0 (Bytes (Value s)) = (s, None).
Proof.
  intros Hne Hs. unfold Value.
  replace (len s =? 0) with false
    by (symmetry; apply Z.eqb_neq; unfold len; destruct s; [congruence|simpl; lia]).
  rewrite (write_joined s (len s) 0 "{") by lia.
  unfold Scan. change ("{" ++ joined s)%string with (String "{" (joined s)).
  rewrite Trim_braces by (apply every_joined; reflexivity).
  rewrite (parse_joined s Hne Hs). reflexivity.
Qed.

End Encoding.

(** C5, at the failing input: the empty history is encoded as the
    explicit marker, not as a null, but [Scan] does not read the marker
    back.  The bytes between the braces are split into one empty element,
    whose conversion fails, so [Scan] returns an error and leaves the
    receiver as it was. *)
Theorem empty_history_is_not_read_back (s0 : States.States) :
  States.Value [] = "{}"%string
  /\ bytes.Split (bytes.Trim (States.Value []) "{}") "," = [EmptyString]
  /\ States.Scan s0 (States.Bytes (States.Value []))
     = (s0, Some (Sprintf "could not parse element %s: %s"
                          [ArgString "";
                           ArgError (strconv.syntaxError "")])).
Proof. repeat split. Qed.

Lemma Add_prepends (s : States.States) (state : Z) :
  States.Add s state = state :: firstn 5 s.
Proof.
  unfold States.Add, States.len.
  destruct (Z.of_nat (List.length s) <? 6) eqn:E; [|reflexivity].
  apply Z.ltb_lt in E. rewrite Nat2Z.id.
  rewrite !firstn_all2 by lia. reflexivity.
Qed.

Lemma Add_length (s : States.States) (state : Z) :
  List.length (States.Add s state) = S (Nat.min 5 (List.length s)).
Proof. rewrite Add_prepends. cbn [List.length]. rewrite length_firstn. reflexivity. Qed.

(** The persisted update keeps the new code and the four newest codes of
    the row, at most five in all. *)
Lemma update_row_history (w : Checker.World) (code : Z) (m : text) (flag : bool)
      (r : Checker.ActiveCheck) :
  Checker.states (Checker.update_row w code m flag r)
  = code :: firstn 4 (Checker.states r)
  /\ (List.length (Checker.states (Checker.update_row w code m flag r)) <= 5)%nat.
Proof.
  split; [reflexivity|]. cbn [Checker.states Checker.update_row List.length].
  rewrite length_firstn. lia.
Qed.

(** C6, at the failing input: [States.Add] on a history of five codes
    keeps all five behind the new code, so the result has six entries and
    the oldest one is not dropped; the persisted update on the same history
    keeps four and has five. *)
Theorem Add_keeps_five_previous :
  States.Add [1; 2; 3; 4; 5] 0 = [0; 1; 2; 3; 4; 5]
  /\ List.length (States.Add [1; 2; 3; 4; 5] 0) = 6%nat
  /\ Checker.states (Checker.update_row (double.world NoError) 0 (Lit "") false
                                        (double.row [1; 2; 3; 4; 5]))
     = [0; 1; 2; 3; 4].
Proof. repeat split. Qed.

(** ** The subprocess executor *)

Lemma ExitStatus_exited (status : Z) :
  0 <= status <= 255 ->
  Exec.Exited (Z.shiftl status 8) = true
  /\ Exec.ExitStatus (Z.shiftl status 8) = status.
Proof.
  intros H. unfold Exec.ExitStatus, Exec.Exited.
  change 127 with (Z.ones 7). change 255 with (Z.ones 8).
  rewrite Z.land_ones by lia. rewrite Z.shiftl_mul_pow2 by lia.
  assert (E : (status * 2 ^ 8) mod 2 ^ 7 = 0).
  { change (2 ^ 8) with (2 * 2 ^ 7). rewrite Z.mul_assoc. apply Z.mod_mul. lia. }
  rewrite E. simpl (0 =? 0). cbv iota. split; [reflexivity|].
  rewrite Z.land_ones by lia. rewrite Z.shiftr_div_pow2 by lia.
  rewrite Z.div_mul by lia. apply Z.mod_small. lia.
Qed.

(** C9, as amended: a command that exits returns its raw exit status,
    whatever it is between 0 and 255, and the combined output as message;
    when there is no process state the code is 3 with a diagnostic message;
    a process that did not exit, such as one killed by a signal, is
    reported with code -1 and its output. *)
Theorem CheckExec_result (os : Exec.Command_) (check : Check) (ctx : Context)
        (name : string) (arguments : list string) :
  Command check = name :: arguments ->
  (forall output,
      os name arguments ctx = Exec.Succeeded output ->
      Exec.CheckExec os check ctx = Ret {| ExitCode := 0; Message := Lit output |})
  /\ (forall err status output,
         0 <= status <= 255 ->
         os name arguments ctx
         = Exec.Failed err (Some (Exec.WaitStatus (Z.shiftl status 8))) output ->
         Exec.CheckExec os check ctx
         = Ret {| ExitCode := status; Message := Lit output |})
  /\ (forall err output,
         os name arguments ctx = Exec.Failed err None output ->
         Exec.CheckExec os check ctx
         = Ret {| ExitCode := 3;
                  Message := Sprintf "unknown error when running command: %w"
                                     [ArgError err] |})
  /\ (forall err w output,
         os name arguments ctx = Exec.Failed err (Some (Exec.WaitStatus w)) output ->
         Exec.Exited w = false ->
         Exec.CheckExec os check ctx
         = Ret {| ExitCode := -1; Message := Lit output |}).
Proof.
  intros Hcmd. unfold Exec.CheckExec. rewrite Hcmd. repeat split.
  - intros output ->. reflexivity.
  - intros err status output Hs ->.
    destruct (ExitStatus_exited status Hs) as [_ ->]. reflexivity.
  - intros err output ->. reflexivity.
  - intros err w output -> Hw. unfold Exec.ExitStatus. rewrite Hw. reflexivity.
Qed.

Lemma CheckExec_result_witness :
  let os := double.exits 4 "disk almost full" in
  let check := double.check ["check_disk"; "/var"]%string in
  (forall output,
      os "check_disk"%string ["/var"%string] double.ctx = Exec.Succeeded output ->
      Exec.CheckExec os check double.ctx
      = Ret {| ExitCode := 0; Message := Lit output |})
  /\ (forall err status output,
         0 <= status <= 255 ->
         os "check_disk"%string ["/var"%string] double.ctx
         = Exec.Failed err (Some (Exec.WaitStatus (Z.shiftl status 8))) output ->
         Exec.CheckExec os check double.ctx
         = Ret {| ExitCode := status; Message := Lit output |})
  /\ (forall err output,
         os "check_disk"%string ["/var"%string] double.ctx = Exec.Failed err None output ->
         Exec.CheckExec os check double.ctx
         = Ret {| ExitCode := 3;
                  Message := Sprintf "unknown error when running command: %w"
                                     [ArgError err] |})
  /\ (forall err w output,
         os "check_disk"%string ["/var"%string] double.ctx
         = Exec.Failed err (Some (Exec.WaitStatus w)) output ->
         Exec.Exited w = false ->
         Exec.CheckExec os check double.ctx
         = Ret {| ExitCode := -1; Message := Lit output |}).
Proof.
  intros os check.
  apply (CheckExec_result os check double.ctx "check_disk" ["/var"%string]).
  reflexivity.
Defined.

(** C9 as stated fails: a child process killed by a signal (here signal
    9, as when the deadline kills it) terminated abnormally and has no exit
    status, yet the result is not code 3 with a diagnostic message but code
    -1 with the captured output. *)
Lemma killed_process_is_reported_as_minus_one :
  Exec.Signaled 9 = true
  /\ Exec.Exited 9 = false
  /\ Exec.CheckExec (double.killed 9 "partial output")
                    (double.check ["sleep"; "60"]%string)
                    {| Err := DeadlineExceeded |}
     = Ret {| ExitCode := -1; Message := Lit "partial output" |}
  /\ ~ (exists m, Exec.CheckExec (double.killed 9 "partial output")
                                 (double.check ["sleep"; "60"]%string)
                                 {| Err := DeadlineExceeded |}
                  = Ret {| ExitCode := 3; Message := m |}).
Proof.
  repeat split. intros [m H]. discriminate H.
Qed.

(** ** Isolation of checks in daemon mode *)

(** [runner.runCheck] builds its flag set anew in every call: its run
    depends on the command tokens of the check and on the backend's
    answers only. *)
Lemma runCheck_depends_on_command (lib : GoLib) (client : Client)
      (check1 check2 : Check) (ctx1 ctx2 : Context) :
  Command check1 = Command check2 ->
  runner.runCheck lib client check1 ctx1 = runner.runCheck lib client check2 ctx2.
Proof.
  intros H. unfold runner.runCheck, runner.prepare. rewrite H. reflexivity.
Qed.

(** C10, at the failing input: in the daemon loop of main.go the flag set
    is created once per worker and reused for every claimed check.  A
    worker that first executes a check with [-warn 4 -error 2] evaluates a
    later check without these flags against the levels 4 and 2 and reports
    code 1; a worker that executes the same later check first, against the
    same backend answer, uses the defaults 0 and 0 and reports code 2. *)
Theorem thread_flags_leak_into_later_checks :
  let first := ["check_graphite"; "-addr"; "http://graphite"; "-key"; "a.b";
                "-warn"; "4"; "-error"; "2"]%string in
  let later := ["check_graphite"; "-addr"; "http://graphite"; "-key"; "a.b"]%string in
  let backend := double.always 200 "scenario-A" in
  legacy.thread double.lib "current value: %f" [(first, backend); (later, backend)]
  = [ {| legacy.result :=
           Ret (Sprintf ("current value: %f" ++ newline) [ArgFloat 3], 1);
         legacy.requests := 1 |};
      {| legacy.result :=
           Ret (Sprintf ("current value: %f" ++ newline) [ArgFloat 3], 1);
         legacy.requests := 1 |} ]
  /\ legacy.thread double.lib "current value: %f" [(later, backend)]
     = [ {| legacy.result :=
              Ret (Sprintf ("current value: %f" ++ newline) [ArgFloat 5], 2);
            legacy.requests := 1 |} ].
Proof. split; vm_compute; reflexivity. Qed.

(** ** The request loop *)

Section Retry.

Import runner.

Variables (client : Client) (req : Request).

Lemma fetch_at_most (budget i : nat) (last : option Response) :
  (i <= snd (fetch client req budget i last) <= i + budget)%nat.
Proof.
  revert i last. induction budget as [|budget IH]; intros i last; simpl; [lia|].
  destruct (client i req) as [res|err]; simpl; [|lia].
  destruct (body res); simpl; [|lia].
  destruct (StatusCode res >? 500).
  - specialize (IH (S i) (Some res)). lia.
  - destruct (negb (StatusCode res =? 200)); simpl; lia.
Qed.

Lemma fetch_at_least (budget i : nat) (last : option Response) :
  (S i <= snd (fetch client req (S budget) i last))%nat.
Proof.
  simpl. destruct (client i req) as [res|err]; simpl; [|lia].
  destruct (body res); simpl; [|lia].
  destruct (StatusCode res >? 500).
  - pose proof (fetch_at_most budget (S i) (Some res)). lia.
  - destruct (negb (StatusCode res =? 200)); simpl; lia.
Qed.


End Retry.

Lemma wrap_small (z : Z) : Go.int_min <= z <= Go.int_max -> Go.wrap z = z.
Proof.
  unfold Go.int_min, Go.int_max, Go.wrap. intros H.
  rewrite Z.mod_small; lia.
Qed.




(** ** Required inputs *)

Section Flags.

Import flag.

Variable lib : GoLib.

Lemma lookup_store_other (n name : string) (v : Value) (f : FlagSet) :
  String.eqb n name = false ->
  lookup name (store n v f) = lookup name f.
Proof.
  intros Hne. induction f as [|[m w] f IH]; simpl; [reflexivity|].
  destruct (String.eqb m n) eqn:Emn; simpl.
  - apply String.eqb_eq in Emn. subst m. rewrite Hne. reflexivity.
  - rewrite IH. reflexivity.
Qed.

(** A flag that no argument names keeps the value it had. *)
Lemma Parse_unmentioned (name : string) (arguments : list string) (f : FlagSet) :
  mentions name arguments = false ->
  lookup name (fst (Parse lib f arguments)) = lookup name f.
Proof.
  remember (List.length arguments) as n eqn:Hn.
  assert (Hle : (List.length arguments <= n)%nat) by lia. clear Hn.
  revert arguments f Hle.
  induction n as [|n IH]; intros arguments f Hle Hm.
  - destruct arguments; [reflexivity|simpl in Hle; lia].
  - destruct arguments as [|s rest]; [reflexivity|].
    simpl in Hle. cbn [mentions existsb] in Hm.
    apply orb_false_iff in Hm. destruct Hm as [Hs Hrest].
    fold (mentions name rest) in Hrest.
    cbn [Parse]. unfold named in Hs.
    destruct (classify s) as [| | |full]; try reflexivity.
    destruct (split_name full) as [nm inline]. cbn [fst] in Hs.
    destruct (lookup nm f) as [old|].
    2:{ destruct (String.eqb nm "help" || String.eqb nm "h"); reflexivity. }
    assert (Hassign : forall value rest',
               (List.length rest' <= n)%nat -> mentions name rest' = false ->
               lookup name
                 (fst (let (v, e) := Set_ lib old value in
                       match e with
                       | Some err =>
                           (store nm v f,
                            Some (Sprintf "invalid value %q for flag -%s: %v"
                                    [ArgString value; ArgString nm; ArgError err]))
                       | None => Parse lib (store nm v f) rest'
                       end))
               = lookup name f).
    { intros value rest' Hlen Hm'.
      destruct (Set_ lib old value) as [v [err|]]; cbn [fst].
      - apply lookup_store_other. exact Hs.
      - rewrite IH by assumption. apply lookup_store_other. exact Hs. }
    destruct inline as [value|].
    + apply Hassign; [lia|exact Hrest].
    + destruct rest as [|value rest']; [reflexivity|].
      cbn [mentions existsb] in Hrest. apply orb_false_iff in Hrest.
      apply Hassign; [simpl in Hle; lia|apply Hrest].
Qed.

End Flags.




(** * Further properties of the code *)

(** ** What the scan reports *)

Section Scan.

Import threshold.

Variables levelWarn levelErr : float.

Lemma point_step_returns (st : scan) (p : list (option float)) :
  (exists st', point_step levelWarn levelErr st p = Ret st') <-> p <> [].
Proof.
  unfold point_step. destruct p as [|[v|] p'].
  - split; [intros [st' H]; discriminate|congruence].
  - split; [congruence|intros _].
    destruct (levelErr <? levelWarn)%float; eexists; reflexivity.
  - split; [congruence|intros _]. eexists; reflexivity.
Qed.

(** The scan returns exactly when no point is an empty slice. *)
Lemma points_return (ps : list (list (option float))) (st : scan) :
  (exists st', points levelWarn levelErr st ps = Ret st') <-> ~ In [] ps.
Proof.
  revert st. induction ps as [|p ps IH]; intros st; simpl.
  - split; [tauto|eauto].
  - destruct (point_step levelWarn levelErr st p) as [st1|reason] eqn:E; simpl.
    + rewrite IH. assert (p <> []) by (apply (point_step_returns st); eauto).
      split; [intros H1 [H2|H2]; congruence|tauto].
    + split; [intros [st' H]; discriminate|].
      intros H. exfalso. destruct p as [|o p'].
      * apply H. left. reflexivity.
      * assert (Hne : o :: p' <> []) by congruence.
        apply (point_step_returns st) in Hne. destruct Hne as [st' Hst'].
        congruence.
Qed.

Lemma points_without_values (ps : list (list (option float))) (st st' : scan) :
  values ps = [] ->
  points levelWarn levelErr st ps = Ret st' -> st' = st.
Proof.
  revert st. induction ps as [|p ps IH]; intros st Hv; simpl.
  - congruence.
  - destruct p as [|[v|] p']; simpl in *; try discriminate.
    apply IH. exact Hv.
Qed.

(** The value kept in [curVal] is one that was seen. *)
Lemma points_curVal (ps : list (list (option float))) (st st' : scan) :
  points levelWarn levelErr st ps = Ret st' ->
  match curVal st' with
  | None => curVal st = None /\ values ps = []
  | Some v => curVal st = Some v \/ In v (values ps)
  end.
Proof.
  revert st. induction ps as [|p ps IH]; intros st; simpl.
  - intros [= <-]. destruct (curVal st); auto.
  - destruct (point_step levelWarn levelErr st p) as [st1|] eqn:E; simpl;
      [|discriminate].
    intros H. specialize (IH st1 H).
    unfold point_step in E. destruct p as [|[v|] p']; try discriminate.
    + assert (Hcur : curVal st1 = Some v \/ (curVal st1 = curVal st /\ curVal st <> None)).
      { destruct (levelErr <? levelWarn)%float; injection E as <-; simpl;
          destruct (curVal st) as [c|]; auto;
          match goal with |- context [if ?b then _ else _] => destruct b end;
          auto; right; split; congruence. }
      simpl values. destruct (curVal st') as [x|].
      * destruct IH as [IH|IH]; [|right; right; exact IH].
        destruct Hcur as [Hcur|[Hcur _]].
        -- right. left. congruence.
        -- left. congruence.
      * destruct IH as [IH _]. destruct Hcur as [Hcur|[Hcur Hne]]; congruence.
    + injection E as <-. exact IH.
Qed.

Lemma first_alarm_cases (vs : list float) :
  In (first_alarm levelWarn levelErr vs) [0; 1; 2].
Proof.
  induction vs as [|v vs IH]; simpl first_alarm; [simpl; auto|].
  destruct (severity_cases levelWarn levelErr v) as [C|[C|C]]; rewrite C; simpl; auto.
Qed.

End Scan.

(** X1: for a decoded payload the executor reports either that no value
    was received, with code 2, exactly when no point carries a value, or
    one of the received values with the severity of the first value that
    raises an alarm as exit code. *)
Theorem evaluate_reports_first_alarm (lib : GoLib) (levelWarn levelErr : float)
        (message raw : string) (payload : Result) (r : CheckResult) :
  json_Unmarshal lib raw = inl payload ->
  runner.evaluate lib levelWarn levelErr message raw = Ret r ->
  (threshold.values (threshold.all_points payload) = []
   /\ r = {| ExitCode := 2;
             Message := Lit "No values received for query! Is the host down?" |})
  \/ (ExitCode r = threshold.first_alarm levelWarn levelErr
                     (threshold.values (threshold.all_points payload))
      /\ exists v, In v (threshold.values (threshold.all_points payload))
                   /\ Message r = Sprintf (message ++ newline) [ArgFloat v]).
Proof.
  intros Hjson. unfold runner.evaluate. rewrite Hjson, targets_points.
  destruct (threshold.points levelWarn levelErr threshold.start
              (threshold.all_points payload)) as [st|] eqn:E; simpl; [|discriminate].
  pose proof (points_curVal _ _ _ _ _ E) as Hcur.
  pose proof (points_first_alarm levelWarn levelErr _ threshold.start st eq_refl E) as Hcode.
  destruct (threshold.curVal st) as [v|]; intros [= <-].
  - right. split; [exact Hcode|]. exists v.
    destruct Hcur as [Hcur|Hcur]; [discriminate|]. auto.
  - left. destruct Hcur as [_ Hcur]. auto.
Qed.

Lemma evaluate_reports_first_alarm_witness :
  (threshold.values (threshold.all_points
     [ {| Datapoints := [ [Some 5%float; Some 100%float];
                          [Some 3%float; Some 160%float] ] |} ]) = []
   /\ {| ExitCode := 1; Message := Sprintf ("current value: %f" ++ newline) [ArgFloat 3] |}
      = {| ExitCode := 2;
           Message := Lit "No values received for query! Is the host down?" |})
  \/ (1 = threshold.first_alarm 4 2
            (threshold.values (threshold.all_points
               [ {| Datapoints := [ [Some 5%float; Some 100%float];
                                    [Some 3%float; Some 160%float] ] |} ]))
      /\ exists v,
          In v (threshold.values (threshold.all_points
                  [ {| Datapoints := [ [Some 5%float; Some 100%float];
                                       [Some 3%float; Some 160%float] ] |} ]))
          /\ Sprintf ("current value: %f" ++ newline) [ArgFloat 3]
             = Sprintf ("current value: %f" ++ newline) [ArgFloat v]).
Proof.
  apply (evaluate_reports_first_alarm double.lib 4 2 "current value: %f" "scenario-A"
           [ {| Datapoints := [ [Some 5%float; Some 100%float];
                                [Some 3%float; Some 160%float] ] |} ]
           {| ExitCode := 1;
              Message := Sprintf ("current value: %f" ++ newline) [ArgFloat 3] |});
    reflexivity.
Defined.

(** X2: the evaluation of a decoded payload returns a result exactly when
    none of its points is an empty slice; a point without elements makes
    [point[0]] panic, wherever it stands in the payload. *)
Theorem evaluate_returns_iff (lib : GoLib) (levelWarn levelErr : float)
        (message raw : string) (payload : Result) :
  json_Unmarshal lib raw = inl payload ->
  ((exists r, runner.evaluate lib levelWarn levelErr message raw = Ret r)
   <-> ~ In [] (threshold.all_points payload)).
Proof.
  intros Hjson. unfold runner.evaluate. rewrite Hjson, targets_points.
  rewrite <- (points_return levelWarn levelErr _ threshold.start).
  destruct (threshold.points levelWarn levelErr threshold.start
              (threshold.all_points payload)) as [st|reason]; simpl.
  - split; [eauto|intros _]. destruct (threshold.curVal st); eauto.
  - split; intros [x H]; discriminate.
Qed.

Lemma evaluate_returns_iff_witness :
  (exists r, runner.evaluate double.lib 4 2 "current value: %f" "no-values" = Ret r)
  <-> ~ In [] (threshold.all_points [ {| Datapoints := [ [None; Some 100%float] ] |} ]).
Proof.
  apply (evaluate_returns_iff double.lib 4 2 "current value: %f" "no-values"
           [ {| Datapoints := [ [None; Some 100%float] ] |} ]).
  reflexivity.
Defined.

Lemma fetch_Returned (client : Client) (req : Request) (budget i : nat)
      (last : option Response) (r : CheckResult) (n : nat) :
  runner.fetch client req budget i last = (runner.Returned r, n) -> ExitCode r = 3.
Proof.
  revert i last. induction budget as [|budget IH]; intros i last; simpl;
    [discriminate|].
  destruct (client i req) as [res|err]; [|intros [= <- _]; reflexivity].
  destruct (body res); [|intros [= <- _]; reflexivity].
  destruct (StatusCode res >? 500); [apply IH|].
  destruct (negb (StatusCode res =? 200)); [intros [= <- _]; reflexivity|discriminate].
Qed.

(** X3: whatever the command line and the backend's answers, a result
    that [runner.runCheck] returns has an exit code among 0, 1, 2 and 3,
    and 0, 1 and 2 only come from the evaluation of a payload. *)
Theorem runCheck_exit_codes (lib : GoLib) (client : Client) (check : Check)
        (ctx : Context) (r : CheckResult) :
  runner.result (runner.runCheck lib client check ctx) = Ret r ->
  In (ExitCode r) [0; 1; 2; 3]
  /\ (runner.requests (runner.runCheck lib client check ctx) = 0%nat -> ExitCode r = 3).
Proof.
  unfold runner.runCheck.
  destruct (runner.prepare lib check) as [early|req retries lw le message] eqn:Hprep.
  - simpl. intros ->. unfold runner.prepare in Hprep.
    assert (H3 : ExitCode r = 3).
    { destruct (Command check) as [|prog arguments]; [discriminate|].
      destruct (flag.Parse lib runner.flags arguments) as [fs [err|]];
        [injection Hprep as <-; reflexivity|].
      repeat match type of Hprep with
             | (if ?b then _ else _) = _ => destruct b
             | match ?o with Some _ => _ | None => _ end = _ => destruct o
             end; try discriminate; injection Hprep as <-; reflexivity. }
    rewrite H3. simpl. tauto.
  - destruct (runner.fetch client req _ 0 None) as [[r'|res raw|[res|]] n] eqn:Hfetch;
      simpl.
    + intros [= ->]. rewrite (fetch_Returned _ _ _ _ _ _ _ Hfetch). simpl. tauto.
    + intros Hr. split.
      * unfold runner.evaluate in Hr.
        destruct (json_Unmarshal lib raw) as [payload|err];
          [|injection Hr as <-; simpl; tauto].
        rewrite targets_points in Hr.
        destruct (threshold.points lw le threshold.start
                    (threshold.all_points payload)) as [st|] eqn:E; simpl in Hr;
          [|discriminate].
        rewrite (points_first_alarm lw le _ threshold.start st eq_refl E) in Hr.
        pose proof (first_alarm_cases lw le
                      (threshold.values (threshold.all_points payload))) as Hc.
        destruct (threshold.curVal st); injection Hr as <-; simpl in *; tauto.
      * intros ->. exfalso.
        destruct (Z.to_nat (wrap (retries + 1))) as [|budget]; [discriminate|].
        pose proof (fetch_at_least client req budget 0 None) as Hle.
        rewrite Hfetch in Hle. simpl in Hle. lia.
    + intros [= <-]. simpl. tauto.
    + discriminate.
Qed.

Lemma runCheck_exit_codes_witness :
  In 1 [0; 1; 2; 3]
  /\ (runner.requests
        (runner.runCheck double.lib (double.always 200 "scenario-A")
           (double.check ["check_graphite"; "-addr"; "http://graphite"; "-key"; "a.b";
                          "-warn"; "4"; "-error"; "2"]%string) double.ctx) = 0%nat ->
      1 = 3).
Proof.
  apply (runCheck_exit_codes double.lib (double.always 200 "scenario-A")
           (double.check ["check_graphite"; "-addr"; "http://graphite"; "-key"; "a.b";
                          "-warn"; "4"; "-error"; "2"]%string) double.ctx
           {| ExitCode := 1;
              Message := Sprintf ("current value: %f" ++ newline) [ArgFloat 3] |}).
  reflexivity.
Defined.

(** ** The order of binary64 values *)

Lemma SFltb_trans (x y z : SpecFloat.spec_float) :
  SpecFloat.SFltb x y = true -> SpecFloat.SFltb y z = true ->
  SpecFloat.SFltb x z = true.
Proof.
  unfold SpecFloat.SFltb, SpecFloat.SFcompare.
  destruct x as [sx|sx| |sx mx ex], y as [sy|sy| |sy my ey], z as [sz|sz| |sz mz ez];
    try discriminate; try reflexivity;
    try destruct sx; try destruct sy; try destruct sz;
    try discriminate; try reflexivity;
    change (Pos.compare_cont Eq mx my) with (Pos.compare mx my);
    change (Pos.compare_cont Eq my mz) with (Pos.compare my mz);
    change (Pos.compare_cont Eq mx mz) with (Pos.compare mx mz);
    destruct (Z.compare_spec ex ey), (Z.compare_spec ey ez), (Z.compare_spec ex ez);
    try discriminate; try reflexivity; try lia;
    destruct (Pos.compare_spec mx my), (Pos.compare_spec my mz), (Pos.compare_spec mx mz);
    simpl; try discriminate; try reflexivity; try lia.
Qed.

Lemma SFltb_irrefl (x : SpecFloat.spec_float) : SpecFloat.SFltb x x = false.
Proof.
  unfold SpecFloat.SFltb, SpecFloat.SFcompare.
  destruct x as [s|s| |s m e]; try destruct s; try reflexivity;
    rewrite Z.compare_refl;
    change (Pos.compare_cont Eq m m) with (Pos.compare m m);
    rewrite Pos.compare_refl; reflexivity.
Qed.

Lemma ltb_trans (x y z : float) :
  (x <? y)%float = true -> (y <? z)%float = true -> (x <? z)%float = true.
Proof. rewrite !FloatAxioms.ltb_spec. apply SFltb_trans. Qed.

Lemma ltb_irrefl (x : float) : (x <? x)%float = false.
Proof. rewrite FloatAxioms.ltb_spec. apply SFltb_irrefl. Qed.

Lemma ltb_below (x y z : float) :
  (x <? y)%float = false -> (z = y \/ (z <? y)%float = true) ->
  (x <? z)%float = false.
Proof.
  intros Hxy [->|Hzy]; [exact Hxy|].
  destruct (x <? z)%float eqn:E; [|reflexivity].
  rewrite (ltb_trans x z y E Hzy) in Hxy. discriminate.
Qed.

Lemma ltb_above (x y z : float) :
  (y <? x)%float = false -> (z = y \/ (y <? z)%float = true) ->
  (z <? x)%float = false.
Proof.
  intros Hyx [->|Hyz]; [exact Hyx|].
  destruct (z <? x)%float eqn:E; [|reflexivity].
  rewrite (ltb_trans y z x Hyz E) in Hyx. discriminate.
Qed.

Section Extreme.

Import threshold.

Variables levelWarn levelErr : float.

(** In descending direction [curVal] ends at a value that none of the
    values seen is less than, and that is the previous [curVal] or less. *)
Lemma points_minimum (ps : list (list (option float))) (st st' : scan) (c : float) :
  (levelErr <? levelWarn)%float = true ->
  points levelWarn levelErr st ps = Ret st' ->
  curVal st' = Some c ->
  (forall x, In x (values ps) -> (x <? c)%float = false)
  /\ (forall c0, curVal st = Some c0 -> c = c0 \/ (c <? c0)%float = true).
Proof.
  intros Hdir. revert st. induction ps as [|p ps IH]; intros st; simpl.
  - intros [= <-] Hc. split; [intros x []|].
    intros c0 Hc0. left. congruence.
  - destruct (point_step levelWarn levelErr st p) as [st1|] eqn:E; simpl;
      [|discriminate].
    intros H Hc. destruct (IH st1 H Hc) as [Hvalues Hprev].
    unfold point_step in E. destruct p as [|[v|] p']; try discriminate.
    + rewrite Hdir in E. injection E as <-. simpl in Hprev. simpl values.
      destruct (curVal st) as [c0|].
      * destruct (v <? c0)%float eqn:Hv.
        -- specialize (Hprev v eq_refl). split.
           ++ intros x [<-|Hx]; [|auto].
              apply (ltb_below v v c (ltb_irrefl v) Hprev).
           ++ intros c0' [= <-]. right.
              destruct Hprev as [->|Hprev]; [exact Hv|].
              exact (ltb_trans c v c0 Hprev Hv).
        -- specialize (Hprev c0 eq_refl). split.
           ++ intros x [<-|Hx]; [|auto]. exact (ltb_below v c0 c Hv Hprev).
           ++ intros c0' [= <-]. exact Hprev.
      * specialize (Hprev v eq_refl). split.
        -- intros x [<-|Hx]; [|auto].
           apply (ltb_below v v c (ltb_irrefl v) Hprev).
        -- discriminate.
    + injection E as <-. split; assumption.
Qed.

(** In ascending direction [curVal] ends at a value that is less than
    none of the values seen. *)
Lemma points_maximum (ps : list (list (option float))) (st st' : scan) (c : float) :
  (levelErr <? levelWarn)%float = false ->
  points levelWarn levelErr st ps = Ret st' ->
  curVal st' = Some c ->
  (forall x, In x (values ps) -> (c <? x)%float = false)
  /\ (forall c0, curVal st = Some c0 -> c = c0 \/ (c0 <? c)%float = true).
Proof.
  intros Hdir. revert st. induction ps as [|p ps IH]; intros st; simpl.
  - intros [= <-] Hc. split; [intros x []|].
    intros c0 Hc0. left. congruence.
  - destruct (point_step levelWarn levelErr st p) as [st1|] eqn:E; simpl;
      [|discriminate].
    intros H Hc. destruct (IH st1 H Hc) as [Hvalues Hprev].
    unfold point_step in E. destruct p as [|[v|] p']; try discriminate.
    + rewrite Hdir in E. injection E as <-. simpl in Hprev. simpl values.
      destruct (curVal st) as [c0|].
      * destruct (c0 <? v)%float eqn:Hv.
        -- specialize (Hprev v eq_refl). split.
           ++ intros x [<-|Hx]; [|auto].
              apply (ltb_above v v c (ltb_irrefl v) Hprev).
           ++ intros c0' [= <-]. right.
              destruct Hprev as [->|Hprev]; [exact Hv|].
              exact (ltb_trans c0 v c Hv Hprev).
        -- specialize (Hprev c0 eq_refl). split.
           ++ intros x [<-|Hx]; [|auto]. exact (ltb_above v c0 c Hv Hprev).
           ++ intros c0' [= <-]. exact Hprev.
      * specialize (Hprev v eq_refl). split.
        -- intros x [<-|Hx]; [|auto].
           apply (ltb_above v v c (ltb_irrefl v) Hprev).
        -- discriminate.
    + injection E as <-. split; assumption.
Qed.

End Extreme.

(** X4: the value that the executor puts into the message is an extreme
    of the values received: when the error level is below the warning
    level no received value is less than it, otherwise it is less than no
    received value. *)
Theorem evaluate_reports_extreme (lib : GoLib) (levelWarn levelErr : float)
        (message raw : string) (payload : Result) (code : Z) (v : float) :
  json_Unmarshal lib raw = inl payload ->
  runner.evaluate lib levelWarn levelErr message raw
  = Ret {| ExitCode := code; Message := Sprintf (message ++ newline) [ArgFloat v] |} ->
  In v (threshold.values (threshold.all_points payload))
  /\ forall x, In x (threshold.values (threshold.all_points payload)) ->
               if (levelErr <? levelWarn)%float then (x <? v)%float = false
               else (v <? x)%float = false.
Proof.
  intros Hjson. unfold runner.evaluate. rewrite Hjson, targets_points.
  destruct (threshold.points levelWarn levelErr threshold.start
              (threshold.all_points payload)) as [st|] eqn:E; simpl; [|discriminate].
  pose proof (points_curVal _ _ _ _ _ E) as Hcur.
  destruct (threshold.curVal st) as [c|] eqn:Hc; [|discriminate].
  intros [= _ <-]. split.
  - destruct Hcur as [Hcur|Hcur]; [discriminate|exact Hcur].
  - intros x Hx. destruct (levelErr <? levelWarn)%float eqn:Hdir.
    + apply (points_minimum levelWarn levelErr _ _ _ c Hdir E Hc). exact Hx.
    + apply (points_maximum levelWarn levelErr _ _ _ c Hdir E Hc). exact Hx.
Qed.

Lemma evaluate_reports_extreme_witness :
  In 3%float (threshold.values (threshold.all_points
     [ {| Datapoints := [ [Some 5%float; Some 100%float];
                          [Some 3%float; Some 160%float] ] |} ]))
  /\ forall x, In x (threshold.values (threshold.all_points
                  [ {| Datapoints := [ [Some 5%float; Some 100%float];
                                       [Some 3%float; Some 160%float] ] |} ])) ->
               if (2 <? 4)%float then (x <? 3)%float = false
               else (3 <? x)%float = false.
Proof.
  apply (evaluate_reports_extreme double.lib 4 2 "current value: %f" "scenario-A"
           [ {| Datapoints := [ [Some 5%float; Some 100%float];
                                [Some 3%float; Some 160%float] ] |} ] 1 3);
    reflexivity.
Defined.

(** ** The state history, further *)

(** X5: a history that is not empty and whose codes fit an [int] is read
    back by [Scan] from the bytes of its [Value] exactly, whatever the
    receiver held before and however long the history is. *)
Theorem history_round_trip (s s0 : States.States) :
  s <> [] -> Forall Go.is_int s ->
  States.Scan s0 (States.Bytes (States.Value s)) = (s, None).
Proof. apply Scan_Value. Qed.

Lemma history_round_trip_witness :
  States.Scan [7] (States.Bytes (States.Value [0; 1; -2; 3])) = ([0; 1; -2; 3], None).
Proof.
  apply (history_round_trip [0; 1; -2; 3] [7]).
  - discriminate.
  - repeat constructor; vm_compute; discriminate.
Defined.

(** X6: [Add] puts the new state first and keeps the five most recent
    previous states behind it, in their order: the result has one entry
    more than the history up to a length of six. *)
Theorem Add_keeps_newest (s : States.States) (state : Z) :
  States.Add s state = state :: firstn 5 s
  /\ List.length (States.Add s state) = S (Nat.min 5 (List.length s))
  /\ (List.length (States.Add s state) <= 6)%nat.
Proof.
  split; [apply Add_prepends|]. rewrite Add_length. split; [reflexivity|lia].
Qed.

(** X7: after [Add], [ToOK] answers whether the state just added is a
    recovery: it is true exactly when the added state is 0 and the history
    was empty or its most recent state was greater than 0. *)
Theorem ToOK_of_Add (s : States.States) (state : Z) :
  States.ToOK (States.Add s state) = true <->
  state = 0 /\ (s = [] \/ exists top rest, s = top :: rest /\ top > 0).
Proof.
  rewrite ToOK_after_Add, backToOkay_true. split.
  - intros [[-> ->]|[top [rest [-> [Ht ->]]]]]; split; eauto.
  - intros [-> [->|[top [rest [-> Ht]]]]]; [left; auto|right; eauto].
Qed.

Lemma Split_not_empty (s : string) (sep : ascii) : bytes.Split s sep <> [].
Proof.
  destruct s as [|c s]; simpl; [discriminate|].
  destruct (Ascii.eqb c sep); [discriminate|].
  destruct (bytes.Split s sep); discriminate.
Qed.

Lemma Atoi_is_int (s : string) (n : Z) : strconv.Atoi s = inl n -> Go.is_int n.
Proof.
  assert (Hr : forall t m, strconv.in_range t m = inl n -> Go.is_int n).
  { unfold strconv.in_range, Go.is_int. intros t m.
    destruct ((int_min <=? m) && (m <=? int_max)) eqn:E; [|discriminate].
    intros [= <-]. apply andb_true_iff in E. destruct E as [E1 E2].
    apply Z.leb_le in E1, E2. auto. }
  unfold strconv.Atoi. destruct s as [|c rest]; [discriminate|].
  destruct (Ascii.eqb c "-" || Ascii.eqb c "+").
  - destruct rest; [discriminate|].
    destruct (strconv.digits _ 0); [apply Hr|discriminate].
  - destruct (strconv.digits _ 0); [apply Hr|discriminate].
Qed.

Lemma parse_result (pieces : list string) (result : list Z) :
  States.parse pieces = inl result ->
  List.length result = List.length pieces /\ Forall Go.is_int result.
Proof.
  revert result. induction pieces as [|piece pieces IH]; intros result; simpl.
  - intros [= <-]. auto.
  - destruct (strconv.Atoi piece) as [n|err] eqn:E; [|discriminate].
    destruct (States.parse pieces) as [l|err]; [|discriminate].
    intros [= <-]. destruct (IH l eq_refl) as [Hlen Hint].
    split; [simpl; congruence|]. constructor; [exact (Atoi_is_int _ _ E)|exact Hint].
Qed.

(** X8: [Scan] either fails and leaves the receiver as it was, or it was
    given bytes and stores a history that has at least one state, all of
    them within the range of an [int]; it never yields the empty
    history. *)
Theorem Scan_result (s s' : States.States) (from : States.src) (e : option error) :
  States.Scan s from = (s', e) ->
  match e with
  | Some _ => s' = s
  | None => (exists b, from = States.Bytes b) /\ s' <> [] /\ Forall Go.is_int s'
  end.
Proof.
  unfold States.Scan. destruct from as [b|t|n|]; try (intros [= <- <-]; reflexivity).
  destruct (States.parse (bytes.Split (bytes.Trim b "{}") ",")) as [result|err] eqn:E.
  - intros [= <- <-]. destruct (parse_result _ _ E) as [Hlen Hint].
    split; [eauto|]. split; [|exact Hint].
    intros ->. apply (Split_not_empty (bytes.Trim b "{}") ",").
    destruct (bytes.Split (bytes.Trim b "{}") ","); [reflexivity|discriminate].
  - intros [= <- <-]. reflexivity.
Qed.

Lemma Scan_result_witness :
  (exists b, States.Bytes "{2,0}" = States.Bytes b)
  /\ [2; 0] <> [] /\ Forall Go.is_int [2; 0].
Proof.
  apply (Scan_result [] [2; 0] (States.Bytes "{2,0}") None). reflexivity.
Defined.

(** ** The coordinator, further *)

Lemma earliest_None (rows : list Checker.ActiveCheck) :
  Checker.earliest rows = None <-> rows = [].
Proof.
  destruct rows as [|r rows]; simpl; [tauto|].
  destruct (Checker.earliest rows) as [r'|];
    [destruct (Checker.next_time r' <? Checker.next_time r)|];
    split; discriminate.
Qed.

Lemma earliest_least (rows : list Checker.ActiveCheck) (r : Checker.ActiveCheck) :
  Checker.earliest rows = Some r ->
  forall x, In x rows -> Checker.next_time r <= Checker.next_time x.
Proof.
  revert r. induction rows as [|r0 rows IH]; intros r; simpl; [discriminate|].
  destruct (Checker.earliest rows) as [r'|] eqn:E.
  - specialize (IH r' eq_refl).
    destruct (Checker.next_time r' <? Checker.next_time r0) eqn:Hlt;
      intros [= <-] x [<-|Hx].
    + apply Z.ltb_lt in Hlt. lia.
    + auto.
    + lia.
    + apply Z.ltb_ge in Hlt. specialize (IH x Hx). lia.
  - apply earliest_None in E. subst rows. intros [= <-] x [<-|[]]. lia.
Qed.

Lemma select_next_least (c : Checker.Checker) (w : Checker.World)
        (db : Checker.DB) (row : Checker.ActiveCheck) :
  Checker.select_next c w db = Some row ->
  In row (Checker.active_checks db)
  /\ Checker.next_time row < Checker.now w
  /\ Checker.enabled row = true
  /\ Checker.checker_id row = Checker.id c
  /\ ~ In (Checker.check_id row) (Checker.locked w)
  /\ forall r, In r (Checker.active_checks db) -> Checker.due c w r = true ->
               Checker.next_time row <= Checker.next_time r.
Proof.
  intros Hsel. destruct (select_next_In c w db row Hsel) as [Hin Hdue].
  split; [exact Hin|].
  unfold Checker.due in Hdue. rewrite !andb_true_iff, negb_true_iff in Hdue.
  destruct Hdue as [[[Ht He] Hc] Hl].
  apply Z.ltb_lt in Ht. apply Z.eqb_eq in Hc.
  repeat split; try assumption.
  - intros Hlocked.
    assert (Hex : existsb (Z.eqb (Checker.check_id row)) (Checker.locked w) = true).
    { apply existsb_exists. exists (Checker.check_id row).
      split; [exact Hlocked|apply Z.eqb_refl]. }
    congruence.
  - intros r Hr Hrdue. unfold Checker.select_next in Hsel.
    apply (earliest_least _ _ Hsel). apply filter_In. auto.
Qed.

(** X9: the check that [Next] claims is enabled, past its next time,
    assigned to this checker and not locked by another transaction, and no
    other such check of the store has an earlier next time. *)
Theorem select_next_earliest (c : Checker.Checker) (w : Checker.World)
        (db : Checker.DB) (row : Checker.ActiveCheck) :
  Checker.select_next c w db = Some row ->
  In row (Checker.active_checks db)
  /\ Checker.next_time row < Checker.now w
  /\ Checker.enabled row = true
  /\ Checker.checker_id row = Checker.id c
  /\ ~ In (Checker.check_id row) (Checker.locked w)
  /\ forall r, In r (Checker.active_checks db) -> Checker.due c w r = true ->
               Checker.next_time row <= Checker.next_time r.
Proof. apply select_next_least. Qed.

Lemma select_next_earliest_witness :
  let c := double.checker double.unreachable in
  let w := double.world NoError in
  let db := double.store [2] in
  In (double.row [2]) (Checker.active_checks db)
  /\ Checker.next_time (double.row [2]) < Checker.now w
  /\ Checker.enabled (double.row [2]) = true
  /\ Checker.checker_id (double.row [2]) = Checker.id c
  /\ ~ In (Checker.check_id (double.row [2])) (Checker.locked w)
  /\ forall r, In r (Checker.active_checks db) -> Checker.due c w r = true ->
               Checker.next_time (double.row [2]) <= Checker.next_time r.
Proof.
  intros c w db. apply (select_next_earliest c w db (double.row [2])). reflexivity.
Defined.

(** X10: when the transaction begins and the query succeeds, [Next]
    answers [ErrNoCheck] exactly when no check of the store is enabled,
    past its next time, assigned to this checker and not locked. *)
Theorem Next_no_check_iff (c : Checker.Checker) (w : Checker.World) (db : Checker.DB) :
  Checker.begin_error w = None ->
  Checker.query_error w = None ->
  (Checker.Next c w db = Ret (db, Some Checker.ErrNoCheck)
   <-> forall r, In r (Checker.active_checks db) -> Checker.due c w r = false).
Proof.
  intros Hb Hq. unfold Checker.Next. rewrite Hb, Hq.
  destruct (Checker.select_next c w db) as [row|] eqn:Hsel.
  - split.
    + intros H. exfalso.
      destruct (Checker.run_executor c w (Checker.claimed row)); simpl in H;
        [|discriminate].
      destruct (Checker.logger c); [|discriminate].
      destruct (Checker.update_error w); [discriminate|].
      destruct (Checker.insert_error w); discriminate.
    + intros H. exfalso. destruct (select_next_In c w db row Hsel) as [Hin Hdue].
      rewrite (H row Hin) in Hdue. discriminate.
  - split; [intros _|reflexivity].
    unfold Checker.select_next in Hsel. apply earliest_None in Hsel.
    intros r Hr. destruct (Checker.due c w r) eqn:Hdue; [|reflexivity].
    assert (Hf : In r (filter (Checker.due c w) (Checker.active_checks db)))
      by (apply filter_In; auto).
    rewrite Hsel in Hf. destruct Hf.
Qed.

Lemma Next_no_check_iff_witness :
  let c := double.checker double.unreachable in
  let w := {| Checker.begin_error := None;
              Checker.now := 100;
              Checker.locked := [7];
              Checker.query_error := None;
              Checker.ctx_err := NoError;
              Checker.update_error := None;
              Checker.insert_error := None;
              Checker.commit_ok := true |} in
  let db := double.store [2] in
  Checker.Next c w db = Ret (db, Some Checker.ErrNoCheck)
  <-> forall r, In r (Checker.active_checks db) -> Checker.due c w r = false.
Proof.
  intros c w db. apply (Next_no_check_iff c w db); reflexivity.
Defined.

(** X11: [Next] changes the store only when it returns without error
    after a successful commit: with any error, or when the commit fails
    (which [Next] does not report), the store is as it was. *)
Theorem Next_persists_only_on_commit (c : Checker.Checker) (w : Checker.World)
        (db db' : Checker.DB) (e : option error) :
  Checker.Next c w db = Ret (db', e) ->
  e <> None \/ Checker.commit_ok w = false ->
  db' = db.
Proof.
  intros H Hcase. destruct e as [err|].
  - exact (Next_error_rolls_back c w db db' err H).
  - destruct Hcase as [Hcase|Hcase]; [congruence|].
    unfold Checker.Next in H.
    destruct (Checker.begin_error w); [discriminate|].
    destruct (Checker.query_error w); [discriminate|].
    destruct (Checker.select_next c w db) as [row|]; [|discriminate].
    destruct (Checker.run_executor c w (Checker.claimed row)); simpl in H;
      [|discriminate].
    destruct (Checker.logger c); [|discriminate].
    destruct (Checker.update_error w); [discriminate|].
    destruct (Checker.insert_error w); [discriminate|].
    rewrite Hcase in H. injection H as <-. reflexivity.
Qed.

Lemma Next_persists_only_on_commit_witness :
  let c := double.checker (double.always 200 "below-zero") in
  let w := {| Checker.begin_error := None;
              Checker.now := 100;
              Checker.locked := [];
              Checker.query_error := None;
              Checker.ctx_err := NoError;
              Checker.update_error := None;
              Checker.insert_error := Some (Lit "connection lost");
              Checker.commit_ok := true |} in
  double.after c w (double.store [2]) = double.store [2].
Proof.
  intros c w.
  apply (Next_persists_only_on_commit c w (double.store [2])
           (double.after c w (double.store [2]))
           (Some (Sprintf "could not create notification '%d': %s"
                          [ArgInt 7; ArgError (Lit "connection lost")]))).
  - reflexivity.
  - left. discriminate.
Defined.

(** X12: a call of [Next] that commits touches the claimed check only:
    the rows of every other check, the notifier associations and the
    mapping levels are as before, and the notifications that were there are
    kept, new ones being added behind them. *)
Theorem Next_frame (c : Checker.Checker) (w : Checker.World) (db db' : Checker.DB) :
  Checker.Next c w db = Ret (db', None) ->
  Checker.commit_ok w = true ->
  exists row,
    Checker.select_next c w db = Some row
    /\ filter (fun r => negb (Checker.check_id r =? Checker.check_id row))
              (Checker.active_checks db')
       = filter (fun r => negb (Checker.check_id r =? Checker.check_id row))
                (Checker.active_checks db)
    /\ List.length (Checker.active_checks db') = List.length (Checker.active_checks db)
    /\ Checker.checks_notify db' = Checker.checks_notify db
    /\ Checker.mapping_level db' = Checker.mapping_level db
    /\ exists added, Checker.notifications db' = Checker.notifications db ++ added.
Proof.
  intros H Hcommit.
  destruct (Next_committed c w db db' H Hcommit) as [row [result [Hsel [_ ->]]]].
  exists row. split; [exact Hsel|].
  cbn [Checker.insert_notifications Checker.update Checker.active_checks
       Checker.checks_notify Checker.mapping_level Checker.notifications].
  split; [|split; [apply length_map|repeat split; eauto]].
  induction (Checker.active_checks db) as [|r rows IH]; [reflexivity|].
  cbn [map filter]. rewrite IH.
  destruct (Checker.check_id r =? Checker.check_id row) eqn:E.
  - cbn [Checker.update_row Checker.check_id]. rewrite E. reflexivity.
  - rewrite E. reflexivity.
Qed.

Lemma Next_frame_witness :
  let c := double.checker (double.always 200 "below-zero") in
  let w := double.world NoError in
  let db := double.store [2] in
  let db' := double.after c w db in
  exists row,
    Checker.select_next c w db = Some row
    /\ filter (fun r => negb (Checker.check_id r =? Checker.check_id row))
              (Checker.active_checks db')
       = filter (fun r => negb (Checker.check_id r =? Checker.check_id row))
                (Checker.active_checks db)
    /\ List.length (Checker.active_checks db') = List.length (Checker.active_checks db)
    /\ Checker.checks_notify db' = Checker.checks_notify db
    /\ Checker.mapping_level db' = Checker.mapping_level db
    /\ exists added, Checker.notifications db' = Checker.notifications db ++ added.
Proof.
  intros c w db db'. apply (Next_frame c w db db'); reflexivity.
Defined.

(** X13: after a call of [Next] that commits, the claimed check is
    scheduled at the current time plus its interval, which is later than
    before when the interval is not negative; its history starts with the
    new exit code and has at most five entries; its message is the result's
    message, and its acknowledgement is cleared exactly when the result is
    a recovery. *)
Theorem Next_updates_claimed_check (c : Checker.Checker) (w : Checker.World)
        (db db' : Checker.DB) :
  Checker.Next c w db = Ret (db', None) ->
  Checker.commit_ok w = true ->
  exists row result r',
    Checker.select_next c w db = Some row
    /\ Checker.run_executor c w (Checker.claimed row) = Ret result
    /\ In r' (Checker.active_checks db')
    /\ Checker.check_id r' = Checker.check_id row
    /\ Checker.next_time r' = Checker.now w + Checker.intval row
    /\ (0 <= Checker.intval row -> Checker.next_time row < Checker.next_time r')
    /\ Checker.states r' = ExitCode result :: firstn 4 (Checker.states row)
    /\ (List.length (Checker.states r') <= 5)%nat
    /\ Checker.msg r' = Message result
    /\ Checker.acknowledged r'
       = (if Checker.backToOkay (Checker.states row) (ExitCode result)
          then false else Checker.acknowledged row).
Proof.
  intros H Hcommit.
  destruct (Next_committed c w db db' H Hcommit) as [row [result [Hsel [Hrun ->]]]].
  destruct (select_next_least c w db row Hsel) as [Hin [Hdue _]].
  exists row, result,
    (Checker.update_row w (ExitCode result) (Message result)
       (Checker.backToOkay (Checker.states row) (ExitCode result)) row).
  split; [exact Hsel|]. split; [exact Hrun|]. split.
  { simpl. apply in_map_iff. exists row. rewrite Z.eqb_refl. auto. }
  cbn [Checker.update_row Checker.check_id Checker.next_time Checker.states
       Checker.msg Checker.acknowledged].
  repeat split; try reflexivity.
  - lia.
  - cbn [List.length]. rewrite length_firstn. lia.
Qed.

Lemma Next_updates_claimed_check_witness :
  let c := double.checker (double.always 200 "below-zero") in
  let w := double.world NoError in
  let db := double.store [2] in
  let db' := double.after c w db in
  exists row result r',
    Checker.select_next c w db = Some row
    /\ Checker.run_executor c w (Checker.claimed row) = Ret result
    /\ In r' (Checker.active_checks db')
    /\ Checker.check_id r' = Checker.check_id row
    /\ Checker.next_time r' = Checker.now w + Checker.intval row
    /\ (0 <= Checker.intval row -> Checker.next_time row < Checker.next_time r')
    /\ Checker.states r' = ExitCode result :: firstn 4 (Checker.states row)
    /\ (List.length (Checker.states r') <= 5)%nat
    /\ Checker.msg r' = Message result
    /\ Checker.acknowledged r'
       = (if Checker.backToOkay (Checker.states row) (ExitCode result)
          then false else Checker.acknowledged row).
Proof.
  intros c w db db'. apply (Next_updates_claimed_check c w db db'); reflexivity.
Defined.

(** X14: no notification is created for an acknowledged check unless the
    result is a recovery: when every row of the claimed check is
    acknowledged and the recovery flag is false, a call of [Next] that
    commits leaves the notifications as they were. *)
Theorem acknowledged_check_is_not_notified (c : Checker.Checker) (w : Checker.World)
        (db db' : Checker.DB) (row : Checker.ActiveCheck) (result : CheckResult) :
  Checker.Next c w db = Ret (db', None) ->
  Checker.commit_ok w = true ->
  Checker.select_next c w db = Some row ->
  Checker.run_executor c w (Checker.claimed row) = Ret result ->
  (forall r, In r (Checker.active_checks db) ->
             Checker.check_id r = Checker.check_id row ->
             Checker.acknowledged r = true) ->
  Checker.backToOkay (Checker.states row) (ExitCode result) = false ->
  Checker.notifications db' = Checker.notifications db.
Proof.
  intros H Hcommit Hsel Hrun Hack Hflag.
  destruct (Next_committed c w db db' H Hcommit) as [row' [result' [Hsel' [Hrun' ->]]]].
  rewrite Hsel in Hsel'. injection Hsel' as <-.
  rewrite Hrun in Hrun'. injection Hrun' as <-.
  rewrite Hflag. unfold Checker.insert_notifications. cbn [Checker.notifications].
  assert (Hjoined : Checker.joined
            (Checker.update w (Checker.check_id row) (ExitCode result)
                            (Message result) false db)
            (monzero.id (Checker.claimed row)) = []).
  { unfold Checker.joined. cbn [Checker.update Checker.active_checks Checker.claimed
                                 monzero.id].
    induction (Checker.active_checks db) as [|r rows IH]; [reflexivity|].
    cbn [map flat_map]. rewrite IH by (intros; apply Hack; simpl; auto).
    rewrite app_nil_r.
    destruct (Checker.check_id r =? Checker.check_id row) eqn:E.
    - cbn [Checker.update_row Checker.check_id Checker.acknowledged].
      rewrite E. apply Z.eqb_eq in E.
      rewrite (Hack r (or_introl eq_refl) E). reflexivity.
    - rewrite E. reflexivity. }
  rewrite Hjoined. simpl. apply app_nil_r.
Qed.

Lemma acknowledged_check_is_not_notified_witness :
  let c := double.checker (double.always 200 "scenario-A") in
  let w := double.world NoError in
  let db := double.store [2] in
  Checker.notifications (double.after c w db) = Checker.notifications db.
Proof.
  intros c w db.
  apply (acknowledged_check_is_not_notified c w db (double.after c w db)
           (double.row [2])
           {| ExitCode := 2;
              Message := Sprintf ("current value: %f" ++ newline) [ArgFloat 5] |});
    try reflexivity.
  intros r [<-|[]] _. reflexivity.
Defined.

(** X15: [NewChecker] refuses a configuration without executor and
    otherwise builds a checker bound to checker id 0, whatever
    [CheckerID] the configuration names: the checks it claims are those
    assigned to checker 0. *)
Theorem NewChecker_claims_for_checker_0 (cfg : Checker.CheckerConfig) :
  (Checker.Executor_ cfg = None <-> exists e, Checker.NewChecker cfg = inr e)
  /\ forall c, Checker.NewChecker cfg = inl c ->
       Checker.id c = 0
       /\ forall w db row, Checker.select_next c w db = Some row ->
                           Checker.checker_id row = 0.
Proof.
  unfold Checker.NewChecker. destruct (Checker.Executor_ cfg) as [e|]; split.
  - split; [discriminate|intros [x H]; discriminate].
  - intros c [= <-]. split; [reflexivity|].
    intros w db row Hsel.
    destruct (select_next_least _ w db row Hsel) as [_ [_ [_ [Hc _]]]].
    exact Hc.
  - split; [eauto|reflexivity].
  - discriminate.
Qed.

(** ** The subprocess executor, further *)




(** ** The daemon of main.go, further *)


(** X18: in the worker loop of main.go the flag set is handed on from
    check to check: after a check is executed, every flag that its command
    line did not name still has the value the flag set had before, be it a
    default or a value set by an earlier check. *)
Theorem thread_flags_are_inherited (lib : GoLib) (message : string) (c : Client)
        (fs fs' : flag.FlagSet) (prog : string) (arguments : list string)
        (r : legacy.run) (name : string) :
  legacy.execute lib message c fs (prog :: arguments) = (fs', r) ->
  flag.mentions name arguments = false ->
  flag.lookup name fs' = flag.lookup name fs.
Proof.
  unfold legacy.execute. intros H Hm.
  pose proof (Parse_unmentioned lib name arguments fs Hm) as Hkeep.
  destruct (flag.Parse lib fs arguments) as [fs1 [err|]];
    injection H as <- _; exact Hkeep.
Qed.

Lemma thread_flags_are_inherited_witness :
  let fs := fst (legacy.execute double.lib "current value: %f"
                   (double.always 200 "scenario-A") legacy.thread_flags
                   ["check_graphite"; "-addr"; "http://graphite"; "-key"; "a.b";
                    "-warn"; "4"; "-error"; "2"]%string) in
  let later := legacy.execute double.lib "current value: %f"
                 (double.always 200 "scenario-A") fs
                 ["check_graphite"; "-addr"; "http://graphite"; "-key"; "c.d"]%string in
  flag.lookup "warn" (fst later) = flag.lookup "warn" fs.
Proof.
  intros fs later.
  apply (thread_flags_are_inherited double.lib "current value: %f"
           (double.always 200 "scenario-A") fs (fst later) "check_graphite"
           ["-addr"; "http://graphite"; "-key"; "c.d"]%string (snd later) "warn");
    reflexivity.
Defined.

(** ** Notifications *)

Lemma notifier_ids_In (rows : list (Z * list Z)) (n : Z) :
  In n (Checker.notifier_ids rows) -> In n (map fst rows).
Proof.
  induction rows as [|[m agg] rows IH]; simpl; [tauto|].
  intros [H|H]; [auto|]. apply filter_In in H. right. apply IH. apply H.
Qed.

Lemma notifier_ids_NoDup (rows : list (Z * list Z)) :
  NoDup (Checker.notifier_ids rows).
Proof.
  induction rows as [|[m agg] rows IH]; simpl; constructor.
  - intros H. apply filter_In in H. destruct H as [_ H].
    rewrite Z.eqb_refl in H. discriminate.
  - apply NoDup_filter. exact IH.
Qed.

Lemma joined_notifier (db : Checker.DB) (cid n : Z) :
  In n (map fst (Checker.joined db cid)) ->
  exists cn, In cn (Checker.checks_notify db)
             /\ Checker.cn_check_id cn = cid
             /\ Checker.cn_enabled cn = true
             /\ Checker.cn_notifier_id cn = n.
Proof.
  unfold Checker.joined. rewrite in_map_iff. intros [[m agg] [Hm Hin]].
  simpl in Hm. subst m. apply in_flat_map in Hin. destruct Hin as [r [_ Hin]].
  destruct ((Checker.check_id r =? cid) && negb (Checker.acknowledged r));
    [|destruct Hin].
  apply in_map_iff in Hin. destruct Hin as [cn [Hcn Hin]].
  apply filter_In in Hin. destruct Hin as [Hin Hf].
  apply andb_true_iff in Hf. destruct Hf as [Hid Hen]. apply Z.eqb_eq in Hid.
  exists cn. injection Hcn as Hcn _. auto.
Qed.

(** X19: the notifications that a committed call of [Next] adds are at
    most one per notifier; each is for a notifier that is enabled for the
    claimed check and carries the check's id and mapping id, the message of
    the result, the host identifier of the checker and at least one mapped
    state. *)
Theorem Next_notifications (c : Checker.Checker) (w : Checker.World)
        (db db' : Checker.DB) :
  Checker.Next c w db = Ret (db', None) ->
  Checker.commit_ok w = true ->
  exists row result added,
    Checker.select_next c w db = Some row
    /\ Checker.run_executor c w (Checker.claimed row) = Ret result
    /\ Checker.notifications db' = Checker.notifications db ++ added
    /\ NoDup (map Checker.n_notifier_id added)
    /\ forall n, In n added ->
         Checker.n_check_id n = Checker.check_id row
         /\ Checker.n_output n = Message result
         /\ Checker.n_mapping_id n = Checker.mapping_id row
         /\ Checker.n_check_host n = Checker.ident c
         /\ Checker.n_states n <> []
         /\ exists cn, In cn (Checker.checks_notify db)
                       /\ Checker.cn_check_id cn = Checker.check_id row
                       /\ Checker.cn_enabled cn = true
                       /\ Checker.cn_notifier_id cn = Checker.n_notifier_id n.
Proof.
  intros H Hcommit.
  destruct (Next_committed c w db db' H Hcommit) as [row [result [Hsel [Hrun ->]]]].
  exists row, result. unfold Checker.insert_notifications.
  cbn [Checker.notifications Checker.claimed monzero.id mappingId].
  set (db1 := Checker.update w (Checker.check_id row) (ExitCode result)
                (Message result)
                (Checker.backToOkay (Checker.states row) (ExitCode result)) db).
  set (rows := Checker.joined db1 (Checker.check_id row)).
  set (F := fun n : Z =>
              match flat_map snd (filter (fun r => fst r =? n) rows) with
              | [] => []
              | z :: l =>
                  [ {| Checker.n_check_id := Checker.check_id row;
                       Checker.n_states := z :: l;
                       Checker.n_output := Message result;
                       Checker.n_mapping_id := Checker.mapping_id row;
                       Checker.n_notifier_id := n;
                       Checker.n_check_host := Checker.ident c |} ]
              end).
  exists (flat_map F (Checker.notifier_ids rows)).
  split; [exact Hsel|]. split; [exact Hrun|]. split; [reflexivity|].
  assert (HF : forall n x, In x (F n) ->
                 Checker.n_notifier_id x = n
                 /\ Checker.n_check_id x = Checker.check_id row
                 /\ Checker.n_output x = Message result
                 /\ Checker.n_mapping_id x = Checker.mapping_id row
                 /\ Checker.n_check_host x = Checker.ident c
                 /\ Checker.n_states x <> []).
  { intros n x. unfold F.
    destruct (flat_map snd (filter (fun r => fst r =? n) rows)); [intros []|].
    intros [<-|[]]. simpl. repeat split; discriminate. }
  split.
  - pose proof (notifier_ids_NoDup rows) as Hnd.
    induction (Checker.notifier_ids rows) as [|n ids IH]; simpl; [constructor|].
    inversion Hnd as [|? ? Hnotin Hnd']; subst. rewrite map_app.
    assert (Hrest : forall m, In m (map Checker.n_notifier_id (flat_map F ids)) ->
                              In m ids).
    { intros m Hm. apply in_map_iff in Hm. destruct Hm as [x [<- Hx]].
      apply in_flat_map in Hx. destruct Hx as [k [Hk Hx]].
      destruct (HF k x Hx) as [-> _]. exact Hk. }
    unfold F at 1.
    destruct (flat_map snd (filter (fun r => fst r =? n) rows)); simpl.
    + apply IH. exact Hnd'.
    + constructor; [|apply IH; exact Hnd'].
      intros Hin. apply Hnotin. apply Hrest. exact Hin.
  - intros x Hx. apply in_flat_map in Hx. destruct Hx as [n [Hn Hx]].
    destruct (HF n x Hx) as [Hid [? [? [? [? ?]]]]].
    repeat split; try assumption.
    apply notifier_ids_In in Hn. apply joined_notifier in Hn.
    rewrite Hid. exact Hn.
Qed.

Lemma Next_notifications_witness :
  let c := double.checker (double.always 200 "below-zero") in
  let w := double.world NoError in
  let db := double.store [2] in
  let db' := double.after c w db in
  exists row result added,
    Checker.select_next c w db = Some row
    /\ Checker.run_executor c w (Checker.claimed row) = Ret result
    /\ Checker.notifications db' = Checker.notifications db ++ added
    /\ NoDup (map Checker.n_notifier_id added)
    /\ forall n, In n added ->
         Checker.n_check_id n = Checker.check_id row
         /\ Checker.n_output n = Message result
         /\ Checker.n_mapping_id n = Checker.mapping_id row
         /\ Checker.n_check_host n = Checker.ident c
         /\ Checker.n_states n <> []
         /\ exists cn, In cn (Checker.checks_notify db)
                       /\ Checker.cn_check_id cn = Checker.check_id row
                       /\ Checker.cn_enabled cn = true
                       /\ Checker.cn_notifier_id cn = Checker.n_notifier_id n.
Proof.
  intros c w db db'. apply (Next_notifications c w db db'); reflexivity.
Defined.

(** ** The worker loop of main.go against the store *)

Section Worker.

Variables (lib : GoLib) (message hostname : string) (config : worker.Config)
          (w : worker.World) (fs : flag.FlagSet) (db : Checker.DB).

(** A turn that commits scanned the history, executed the check and
    persisted the update with the flag [ToOK] gives for the history as
    scanned. *)
Lemma iteration_committed (fs' : flag.FlagSet) (db' : Checker.DB) :
  worker.iteration lib message hostname config w fs db = Ret (worker.Committed, fs', db') ->
  worker.commit_ok w = true ->
  exists row states m state,
    worker.select_next config w db = Some row
    /\ States.Scan [] (worker.delivered w row) = (states, None)
    /\ legacy.execute lib message (worker.client w) fs (Checker.cmdLine row)
       = (fs', {| legacy.result := Ret (m, state);
                  legacy.requests :=
                    legacy.requests
                      (snd (legacy.execute lib message (worker.client w) fs
                                           (Checker.cmdLine row))) |})
    /\ db' = worker.insert_notifications hostname (Checker.check_id row)
               (Checker.mapping_id row) m
               (worker.update w (Checker.check_id row) state m (States.ToOK states) db).
Proof.
  unfold worker.iteration. intros H Hcommit.
  destruct (worker.begin_error w); [discriminate|].
  destruct (worker.query_error w); [discriminate|].
  destruct (worker.select_next config w db) as [row|]; [|discriminate].
  destruct (States.Scan [] (worker.delivered w row)) as [states [err|]] eqn:Hscan;
    [discriminate|].
  destruct (legacy.execute lib message (worker.client w) fs (Checker.cmdLine row))
    as [fs1 [[[m state]|reason] n]] eqn:Hexec; simpl in H; [|discriminate].
  destruct (worker.update_error w); [discriminate|].
  destruct (worker.insert_error w); [discriminate|].
  rewrite Hcommit in H. injection H as <- <-.
  exists row, states, m, state.
  split; [reflexivity|]. split; [exact Hscan|]. rewrite Hexec. split; reflexivity.
Qed.

End Worker.

(** X20: the worker loop of main.go changes the store only in a turn that
    ends with a successful commit; a turn that could not start, slept or
    rolled back, or whose commit failed, leaves the store as it was. *)
Theorem worker_persists_only_on_commit (lib : GoLib) (message hostname : string)
        (config : worker.Config) (w : worker.World) (fs fs' : flag.FlagSet)
        (db db' : Checker.DB) (t : worker.turn) :
  worker.iteration lib message hostname config w fs db = Ret (t, fs', db') ->
  t <> worker.Committed \/ worker.commit_ok w = false ->
  db' = db.
Proof.
  unfold worker.iteration. intros H Hcase.
  destruct (worker.begin_error w); [injection H as _ _ <-; reflexivity|].
  destruct (worker.query_error w); [injection H as _ _ <-; reflexivity|].
  destruct (worker.select_next config w db) as [row|];
    [|injection H as _ _ <-; reflexivity].
  destruct (States.Scan [] (worker.delivered w row)) as [states [err|]];
    [injection H as _ _ <-; reflexivity|].
  destruct (legacy.execute lib message (worker.client w) fs (Checker.cmdLine row))
    as [fs1 [[[m state]|reason] n]]; simpl in H; [|discriminate].
  destruct (worker.update_error w); [injection H as _ _ <-; reflexivity|].
  destruct (worker.insert_error w); [injection H as _ _ <-; reflexivity|].
  injection H as <- _ <-. destruct Hcase as [Hcase|Hcase]; [congruence|].
  rewrite Hcase. reflexivity.
Qed.

Lemma worker_persists_only_on_commit_witness :
  let w := {| worker.begin_error := None;
              worker.now := 100;
              worker.locked := [];
              worker.query_error := None;
              worker.delivered := fun r => States.Bytes (States.Value (Checker.states r));
              worker.client := double.always 200 "below-zero";
              worker.update_error := Some (Lit "connection lost");
              worker.insert_error := None;
              worker.commit_ok := true |} in
  match worker.iteration double.lib "current value: %f" "monitor-1" double.config w
                         legacy.thread_flags (double.store [2]) with
  | Ret (_, _, db') => db'
  | Panic _ => double.store []
  end = double.store [2].
Proof.
  intros w.
  apply (worker_persists_only_on_commit double.lib "current value: %f" "monitor-1"
           double.config w legacy.thread_flags
           (flag.store "key" (flag.StringVal "a.b")
              (flag.store "addr" (flag.StringVal "http://graphite") legacy.thread_flags))
           (double.store [2])
           (match worker.iteration double.lib "current value: %f" "monitor-1"
                                   double.config w legacy.thread_flags
                                   (double.store [2]) with
            | Ret (_, _, db') => db'
            | Panic _ => double.store []
            end)
           worker.RolledBack).
  - reflexivity.
  - left. discriminate.
Defined.

(** X21: in the worker loop of main.go a due check whose history is
    empty is not executed when the driver delivers the history in the
    encoding of [Value]: scanning the row fails, the turn ends with a
    rollback and a sleep, and the flag set and the store stay as they
    were. *)
Theorem worker_skips_empty_history (lib : GoLib) (message hostname : string)
        (config : worker.Config) (w : worker.World) (fs : flag.FlagSet)
        (db : Checker.DB) (row : Checker.ActiveCheck) :
  worker.begin_error w = None ->
  worker.query_error w = None ->
  worker.select_next config w db = Some row ->
  Checker.states row = [] ->
  worker.delivered w row = States.Bytes (States.Value (Checker.states row)) ->
  worker.iteration lib message hostname config w fs db = Ret (worker.Slept, fs, db).
Proof.
  intros Hb Hq Hsel Hempty Hdel. unfold worker.iteration.
  rewrite Hb, Hq, Hsel, Hdel, Hempty. reflexivity.
Qed.

Lemma worker_skips_empty_history_witness :
  worker.iteration double.lib "current value: %f" "monitor-1" double.config
                   (double.turn_world (double.always 200 "below-zero"))
                   legacy.thread_flags (double.store [])
  = Ret (worker.Slept, legacy.thread_flags, double.store []).
Proof.
  apply (worker_skips_empty_history double.lib "current value: %f" "monitor-1"
           double.config (double.turn_world (double.always 200 "below-zero"))
           legacy.thread_flags (double.store []) (double.row []));
    reflexivity.
Defined.

(** X22: in a turn of the worker loop of main.go that commits, for a
    history delivered in the encoding of [Value], the acknowledgement of
    the check is cleared according to [ToOK] of the history as it was
    stored, whatever state the check just returned: it is cleared exactly
    when the most recent stored state is 0 and is the only one or follows a
    state greater than 0.  The new state is put in front of the four most
    recent stored states. *)
Theorem worker_recovery_flag_is_of_stored_history
        (lib : GoLib) (message hostname : string) (config : worker.Config)
        (w : worker.World) (fs fs' : flag.FlagSet) (db db' : Checker.DB)
        (row : Checker.ActiveCheck) :
  worker.iteration lib message hostname config w fs db
  = Ret (worker.Committed, fs', db') ->
  worker.commit_ok w = true ->
  worker.select_next config w db = Some row ->
  worker.delivered w row = States.Bytes (States.Value (Checker.states row)) ->
  Forall Go.is_int (Checker.states row) ->
  exists m state r',
    legacy.result (snd (legacy.execute lib message (worker.client w) fs
                                       (Checker.cmdLine row))) = Ret (m, state)
    /\ In r' (Checker.active_checks db')
    /\ Checker.check_id r' = Checker.check_id row
    /\ Checker.states r' = state :: firstn 4 (Checker.states row)
    /\ Checker.msg r' = m
    /\ Checker.acknowledged r'
       = (if States.ToOK (Checker.states row) then false else Checker.acknowledged row).
Proof.
  intros H Hcommit Hsel Hdel Hint.
  destruct (iteration_committed lib message hostname config w fs db fs' db' H Hcommit)
    as [row' [states [m [state [Hsel' [Hscan [Hexec ->]]]]]]].
  rewrite Hsel in Hsel'. injection Hsel' as <-.
  assert (Hstates : states = Checker.states row).
  { rewrite Hdel in Hscan. destruct (Checker.states row) as [|top rest] eqn:E.
    - discriminate Hscan.
    - rewrite <- E in Hscan. rewrite Scan_Value in Hscan by congruence.
      congruence. }
  subst states.
  exists m, state,
    (worker.update_row w state m (States.ToOK (Checker.states row)) row).
  split; [rewrite Hexec; reflexivity|]. split.
  - cbn [worker.insert_notifications worker.update Checker.active_checks].
    apply in_map_iff. exists row. rewrite Z.eqb_refl. split; [reflexivity|].
    unfold worker.select_next in Hsel. apply earliest_In in Hsel.
    apply filter_In in Hsel. apply Hsel.
  - repeat split.
Qed.

Lemma worker_recovery_flag_is_of_stored_history_witness :
  let w := double.turn_world (double.always 200 "below-zero") in
  exists m state r',
    legacy.result (snd (legacy.execute double.lib "current value: %f" (worker.client w)
                                       legacy.thread_flags
                                       (Checker.cmdLine (double.row [2]))))
    = Ret (m, state)
    /\ In r' (Checker.active_checks
                (worker.insert_notifications "monitor-1" 7 1
                   (Sprintf ("current value: %f" ++ newline) [ArgFloat (-1)])
                   (worker.update w 7 0
                      (Sprintf ("current value: %f" ++ newline) [ArgFloat (-1)])
                      false (double.store [2]))))
    /\ Checker.check_id r' = Checker.check_id (double.row [2])
    /\ Checker.states r' = state :: firstn 4 (Checker.states (double.row [2]))
    /\ Checker.msg r' = m
    /\ Checker.acknowledged r'
       = (if States.ToOK (Checker.states (double.row [2])) then false
          else Checker.acknowledged (double.row [2])).
Proof.
  intros w.
  apply (worker_recovery_flag_is_of_stored_history double.lib "current value: %f"
           "monitor-1" double.config w legacy.thread_flags
           (flag.store "key" (flag.StringVal "a.b")
              (flag.store "addr" (flag.StringVal "http://graphite") legacy.thread_flags))
           (double.store [2])
           (worker.insert_notifications "monitor-1" 7 1
              (Sprintf ("current value: %f" ++ newline) [ArgFloat (-1)])
              (worker.update w 7 0
                 (Sprintf ("current value: %f" ++ newline) [ArgFloat (-1)])
                 false (double.store [2])))
           (double.row [2])); try reflexivity.
  repeat constructor; vm_compute; discriminate.
Defined.

(** ** Further edge behaviour *)

(** X23: a committed call of [Next] keeps the time since which the check
    is in its state when the new exit code equals the most recent stored
    code, and sets it to the current time otherwise, also when the history
    was empty. *)
Theorem Next_state_since (c : Checker.Checker) (w : Checker.World)
        (db db' : Checker.DB) :
  Checker.Next c w db = Ret (db', None) ->
  Checker.commit_ok w = true ->
  exists row result r',
    Checker.select_next c w db = Some row
    /\ Checker.run_executor c w (Checker.claimed row) = Ret result
    /\ In r' (Checker.active_checks db')
    /\ Checker.check_id r' = Checker.check_id row
    /\ (hd_error (Checker.states row) = Some (ExitCode result) ->
        Checker.state_since r' = Checker.state_since row)
    /\ (hd_error (Checker.states row) <> Some (ExitCode result) ->
        Checker.state_since r' = Checker.now w).
Proof.
  intros H Hcommit.
  destruct (Next_committed c w db db' H Hcommit) as [row [result [Hsel [Hrun ->]]]].
  destruct (select_next_In c w db row Hsel) as [Hin _].
  exists row, result,
    (Checker.update_row w (ExitCode result) (Message result)
       (Checker.backToOkay (Checker.states row) (ExitCode result)) row).
  split; [exact Hsel|]. split; [exact Hrun|]. split.
  { simpl. apply in_map_iff. exists row. rewrite Z.eqb_refl. auto. }
  split; [reflexivity|].
  cbn [Checker.update_row Checker.state_since].
  destruct (Checker.states row) as [|top rest]; simpl.
  - split; [discriminate|reflexivity].
  - destruct (ExitCode result =? top) eqn:E.
    + apply Z.eqb_eq in E. split; [reflexivity|]. intros Hne. congruence.
    + apply Z.eqb_neq in E. split; [|reflexivity]. intros [= Heq]. congruence.
Qed.

Lemma Next_state_since_witness :
  let c := double.checker (double.always 200 "below-zero") in
  let w := double.world NoError in
  let db := double.store [2] in
  let db' := double.after c w db in
  exists row result r',
    Checker.select_next c w db = Some row
    /\ Checker.run_executor c w (Checker.claimed row) = Ret result
    /\ In r' (Checker.active_checks db')
    /\ Checker.check_id r' = Checker.check_id row
    /\ (hd_error (Checker.states row) = Some (ExitCode result) ->
        Checker.state_since r' = Checker.state_since row)
    /\ (hd_error (Checker.states row) <> Some (ExitCode result) ->
        Checker.state_since r' = Checker.now w).
Proof.
  intros c w db db'. apply (Next_state_since c w db db'); reflexivity.
Defined.

(** X24: the [runCheck] of main.go retries exactly once: when the first
    request is answered with a status above 500, a second one is sent; a
    200 answer to it is evaluated, and a second status above 500 ends the
    check with code 3 and the message about internal problems. *)
Theorem legacy_runCheck_retries_once (lib : GoLib) (message : string) (c : Client)
        (addr key msg intVal : string) (levelWarn levelErr : float) :
  addr <> ""%string -> intVal <> ""%string -> key <> ""%string ->
  url_Parse lib addr = None ->
  runner.transient c (runner.render addr key intVal) 0 = true ->
  forall res raw,
    c 1%nat (runner.render addr key intVal) = inl res ->
    body res = BodyRead raw ->
    (StatusCode res = 200 ->
     legacy.runCheck lib message c addr key msg intVal levelWarn levelErr
     = {| legacy.result := legacy.evaluate lib message levelWarn levelErr raw;
          legacy.requests := 2 |})
    /\ (StatusCode res > 500 ->
        legacy.runCheck lib message c addr key msg intVal levelWarn levelErr
        = {| legacy.result :=
               Ret (Sprintf
                      "graphite api has internal problems, answered with status code: %d"
                      [ArgInt (StatusCode res)], 3);
             legacy.requests := 2 |}).
Proof.
  intros Haddr Hint Hkey Hurl Htrans res raw Hres Hbody.
  unfold legacy.runCheck.
  apply String.eqb_neq in Haddr, Hint, Hkey. rewrite Haddr, Hint, Hkey, Hurl.
  unfold runner.transient in Htrans. cbn [runner.fetch].
  destruct (c 0%nat (runner.render addr key intVal)) as [res0|]; [|discriminate].
  destruct (body res0); [|discriminate].
  rewrite Htrans, Hres, Hbody. split.
  - intros ->. reflexivity.
  - intros Hgt.
    replace (StatusCode res >? 500) with true
      by (symmetry; rewrite Z.gtb_ltb; apply Z.ltb_lt; lia).
    reflexivity.
Qed.

Lemma legacy_runCheck_retries_once_witness :
  (200 = 200 ->
   legacy.runCheck double.lib "current value: %f" (double.scripted [503] "below-zero")
                   "http://graphite" "a.b" "current value: %f" "60s" 0 0
   = {| legacy.result := legacy.evaluate double.lib "current value: %f" 0 0 "below-zero";
        legacy.requests := 2 |})
  /\ (200 > 500 ->
      legacy.runCheck double.lib "current value: %f" (double.scripted [503] "below-zero")
                      "http://graphite" "a.b" "current value: %f" "60s" 0 0
      = {| legacy.result :=
             Ret (Sprintf
                    "graphite api has internal problems, answered with status code: %d"
                    [ArgInt 200], 3);
           legacy.requests := 2 |}).
Proof.
  apply (legacy_runCheck_retries_once double.lib "current value: %f"
           (double.scripted [503] "below-zero")
           "http://graphite" "a.b" "current value: %f" "60s" 0 0
           ltac:(discriminate) ltac:(discriminate) ltac:(discriminate)
           eq_refl eq_refl
           {| StatusCode := 200; body := BodyRead "below-zero" |} "below-zero");
    reflexivity.
Defined.

(** X25: a retry count below zero, or the largest [int], whose successor
    wraps around, leaves the request loop without a single attempt:
    [runner.runCheck] then sends no request and panics on the status code
    of the response it never received. *)
Theorem runCheck_panics_without_attempt (lib : GoLib) (client : Client)
        (check : Check) (ctx : Context) (req : Request) (retries : Z)
        (levelWarn levelErr : float) (message : string) :
  runner.prepare lib check = runner.Ready req retries levelWarn levelErr message ->
  Go.int_min <= retries <= -1 \/ retries = Go.int_max ->
  runner.runCheck lib client check ctx
  = {| runner.result := Panic "nil pointer dereference"; runner.requests := 0 |}.
Proof.
  intros Hprep Hr. unfold runner.runCheck. rewrite Hprep.
  assert (Hbudget : Z.to_nat (Go.wrap (retries + 1)) = 0%nat).
  { destruct Hr as [Hr| ->].
    - rewrite wrap_small by (unfold Go.int_min, Go.int_max in *; lia). lia.
    - reflexivity. }
  rewrite Hbudget. reflexivity.
Qed.

Lemma runCheck_panics_without_attempt_witness :
  runner.runCheck double.lib (double.always 200 "below-zero")
    (double.check ["check_graphite"; "-addr"; "http://graphite"; "-key"; "a.b";
                   "-retries"; "-1"]%string) double.ctx
  = {| runner.result := Panic "nil pointer dereference"; runner.requests := 0 |}.
Proof.
  apply (runCheck_panics_without_attempt double.lib (double.always 200 "below-zero")
           (double.check ["check_graphite"; "-addr"; "http://graphite"; "-key"; "a.b";
                          "-retries"; "-1"]%string) double.ctx
           (runner.render "http://graphite" "a.b" "60s") (-1) 0 0 "current value: %f").
  - reflexivity.
  - left. unfold Go.int_min. lia.
Defined.

(** X26: for a decoded payload the executor returns exit code 0 exactly
    when at least one value was received and every received value is on
    the safe side of the warning level and of the error level. *)
Theorem evaluate_ok_iff (lib : GoLib) (levelWarn levelErr : float)
        (message raw : string) (payload : Result) (r : CheckResult) :
  json_Unmarshal lib raw = inl payload ->
  runner.evaluate lib levelWarn levelErr message raw = Ret r ->
  (ExitCode r = 0 <->
   threshold.values (threshold.all_points payload) <> []
   /\ forall v, In v (threshold.values (threshold.all_points payload)) ->
                threshold.severity levelWarn levelErr v = 0).
Proof.
  intros Hjson. unfold runner.evaluate. rewrite Hjson, targets_points.
  destruct (threshold.points levelWarn levelErr threshold.start
              (threshold.all_points payload)) as [st|] eqn:E; simpl; [|discriminate].
  pose proof (points_curVal _ _ _ _ _ E) as Hcur.
  pose proof (points_code_0 levelWarn levelErr _ st E) as Hzero.
  destruct (threshold.curVal st) as [v|]; intros [= <-]; simpl.
  - rewrite Hzero. split; [|tauto]. intros Hall. split; [|exact Hall].
    destruct Hcur as [Hcur|Hcur]; [discriminate|].
    intros Hnil. rewrite Hnil in Hcur. destruct Hcur.
  - destruct Hcur as [_ Hnil]. split; [discriminate|]. intros [Hne _]. congruence.
Qed.

Lemma evaluate_ok_iff_witness :
  0 = 0 <->
  threshold.values (threshold.all_points
     [ {| Datapoints := [ [Some (-1)%float; Some 100%float] ] |} ]) <> []
  /\ forall v, In v (threshold.values (threshold.all_points
                  [ {| Datapoints := [ [Some (-1)%float; Some 100%float] ] |} ])) ->
               threshold.severity 0 0 v = 0.
Proof.
  apply (evaluate_ok_iff double.lib 0 0 "current value: %f" "below-zero"
           [ {| Datapoints := [ [Some (-1)%float; Some 100%float] ] |} ]
           {| ExitCode := 0;
              Message := Sprintf ("current value: %f" ++ newline) [ArgFloat (-1)] |});
    reflexivity.
Defined.
